(** * Express-Sequelize-Tutorial: the request pipeline and the user store

    A shallow embedding of [index.js], of the router of [routes/user.js]
    and of the models module that [index.js] requires as [./models], and
    the properties of the specification checked against it.

    - [JSNumber]: IEEE-754 binary64 numbers as the standard library's
      [spec_float], with [Math.round] and the range of [Math.random()].
    - [Http], [Store]: requests, responses and errors; the module-level
      [users] array and the console.
    - [Users]: the handlers and the bindings of the router.
    - [App]: the stack [index.js] registers and the dispatch loop of
      Express that runs it.
    - [Models]: the Sequelize model, [dbInit] and the start of the
      process.
    - [Runs]: the notions the properties are stated with.
    - [Async]: the snippets on asynchronous code, one per style.
    - [Cases]: further requests and environments for the properties.

    Express, Sequelize, the view engine, the clock and [Math.random] are
    outside the repository: what they return is an input of the model
    ([Store.env], [Models.engine]). *)

From Stdlib Require Import ZArith Lia Bool Ascii SpecFloat.
From stdpp Require Import base gmap strings list pretty.

(** ** JavaScript numbers *)

Module JSNumber.
Local Open Scope Z_scope.

(** A JavaScript Number is a binary64 float: 53 bits of precision,
    infinities at exponent 1024. *)
Definition prec : Z := 53.
Definition emax : Z := 1024.

(** The Number denoted by an integer literal such as [10]. *)
Definition of_Z (z : Z) : spec_float := binary_normalize prec emax z 0 false.

Definition mul : spec_float -> spec_float -> spec_float := SFmul prec emax.

(** The values [Math.round] can return: an integer, or one of the
    non-integral Numbers it passes through unchanged. *)
Inductive number :=
  | NInt (z : Z)
  | NNegZero
  | NNaN
  | NInf (neg : bool).

#[export] Instance number_eq_dec : EqDecision number.
Proof. solve_decision. Defined.

(** [floor (x + 1/2)] for the finite float [(-1)^s * m * 2^e], computed
    on integers. *)
Definition round_half_up (s : bool) (m : positive) (e : Z) : Z :=
  let v := cond_Zopp s (Zpos m) in
  if 0 <=? e then v * 2 ^ e else (2 * v + 2 ^ (- e)) / 2 ^ (1 - e).

(** [Math.round(x)]: the integer nearest to [x], ties towards
    +Infinity; [-0] for [x] in [[-0.5, -0]]; NaN and the infinities are
    returned as they are. *)
Definition Math_round (x : spec_float) : number :=
  match x with
  | S754_nan => NNaN
  | S754_infinity s => NInf s
  | S754_zero s => if s then NNegZero else NInt 0
  | S754_finite s m e =>
      let r := round_half_up s m e in
      if s && (r =? 0) then NNegZero else NInt r
  end.

(** What [Math.random()] may return: a Number with positive sign,
    greater than or equal to [+0] and strictly less than [1]. *)
Definition is_random (x : spec_float) : bool :=
  match x with
  | S754_zero false => true
  | S754_finite false m e => bounded prec emax m e && SFltb x (of_Z 1)
  | _ => false
  end.

(** The text of such a Number, as in a URL or a template. *)
Definition to_string (n : number) : string :=
  match n with
  | NInt z => pretty z
  | NNegZero => "0"
  | NNaN => "NaN"
  | NInf false => "Infinity"
  | NInf true => "-Infinity"
  end.

(** The expression [Math.round(Math.random() * 10)], as a function of
    the Number drawn by [Math.random()]. *)
Definition random_id (r : spec_float) : number :=
  Math_round (mul r (of_Z 10)).

End JSNumber.

(** ** Requests, responses and errors *)

Module Http.

(** A value of a decoded request body. *)
#[warnings="-register-all"] Inductive jsval :=
  | JUndefined
  | JNull
  | JBool (b : bool)
  | JNum (x : spec_float)
  | JStr (s : string)
  | JArr (items : list jsval)
  | JObj (fields : list (string * jsval)).

(** The method of a request; [Verb] is for those other than the three
    the stack tells apart. *)
Inductive method := GET | HEAD | POST | Verb (name : string).

Definition method_name (m : method) : string :=
  match m with
  | GET => "GET"
  | HEAD => "HEAD"
  | POST => "POST"
  | Verb name => name
  end.

#[export] Instance method_eq_dec : EqDecision method.
Proof. solve_decision. Defined.

(** The path of a URL is kept as the list of its segments: what is left
    of the pathname after its leading slash, split at each slash. ["/"]
    is [[""]], ["/users"] is [["users"]] and ["/users/"] is
    [["users"; ""]]. *)
Definition pathname (segments : list string) : string :=
  foldr (fun seg rest => "/" +:+ seg +:+ rest) "" segments.

(** [req.body] is [undefined] ([None]) until a body parser has set it. *)
Record request := {
  req_method : method;
  req_path : list string;
  req_query : option string;
  req_body : option (gmap string jsval);
}.

(** [req.originalUrl] *)
Definition originalUrl (req : request) : string :=
  pathname (req_path req) +:+
  match req_query req with Some q => "?" +:+ q | None => "" end.

Definition with_path (p : list string) (req : request) : request :=
  {| req_method := req_method req; req_path := p;
     req_query := req_query req; req_body := req_body req |}.

(** An error object, with its [name] and its [message]. *)
Record error := { err_name : string; err_message : string }.

(** What a handler has written to [res] when it ends the exchange:
    [res.send(body)] under the status set before it (200 unless
    [res.status] was called), [res.redirect(url)], which answers 302
    with [url] as the [Location] header, or the final handler of
    Express, which answers a request nothing has claimed. *)
Inductive response :=
  | Send (status : nat) (body : string)
  | Redirect (status : nat) (location : string)
  | Final (status : nat).

Definition status_of (r : response) : nat :=
  match r with
  | Send status _ | Redirect status _ | Final status => status
  end.

(** How one call of a middleware function ends: it called [next()],
    called [next(err)], threw [err], or ended the exchange. *)
Inductive outcome :=
  | Next (req : request)
  | NextErr (e : error)
  | Throw (e : error)
  | Done (r : response).

(** The target of a [Location] header that is a single relative path
    segment, resolved against the path of the request (RFC 3986, 5.2.3:
    the last segment of the base path is replaced). *)
Definition resolve (base : list string) (ref : string) : list string :=
  removelast base ++ [ref].

End Http.

(** ** The user store of [routes/user.js] *)

Module Store.
Import JSNumber Http.

Record task := { title : string }.

Record user := {
  id : number;
  name : jsval;
  tasks : list task;
}.

(** A line of the console: [console.log] of a string, or
    [console.error] of an optional label and an error. *)
Inductive entry :=
  | Log (line : string)
  | Error (label : option string) (e : error).

(** The state of the process: the module-level [users] array and the
    console. *)
Record state := {
  users : list user;
  console : list entry;
}.

Definition set_users (us : list user) (st : state) : state :=
  {| users := us; console := console st |}.

Definition print (e : entry) (st : state) : state :=
  {| users := users st; console := console st ++ [e] |}.

(** [let users = [{ id: 1, name: 'Antonio', tasks: [] }]] *)
Definition initial_users : list user :=
  [ {| id := NInt 1; name := JStr "Antonio"; tasks := [] |} ].

Definition initial : state := {| users := initial_users; console := [] |}.

(** What lies outside the repository and is consulted while one request
    is handled: the Number [Math.random()] returns, the text of
    [new Date().toLocaleTimeString()], [decodeURIComponent] ([None] when
    it throws its [URIError]), the three middlewares built by Express,
    and the view engine behind [res.render]. *)
Record env := {
  Math_random : spec_float;
  toLocaleTimeString : string;
  decodeURIComponent : string -> option string;
  express_static : request -> outcome;
  express_json : request -> outcome;
  express_urlencoded : request -> outcome;
  render : string -> list user -> error + string;
}.

Definition middleware : Type := env -> request -> state -> state * outcome.
Definition error_middleware : Type :=
  error -> env -> request -> state -> state * outcome.

End Store.

(** ** The router of [routes/user.js] *)

Module Users.
Import JSNumber Http Store.

(** [router.get('/', ...)]: [res.render('users.pug', { users: users })].
    A view that fails to render is passed to [next]. *)
Definition get_root : middleware := fun ev req st =>
  match render ev "users.pug" (users st) with
  | inr html => (st, Done (Send 200 html))
  | inl e => (st, NextErr e)
  end.

(** The [TypeError] of [const { name } = req.body] when [req.body] is
    [undefined]. *)
Definition destructure_error : error :=
  {| err_name := "TypeError";
     err_message :=
       "Cannot destructure property 'name' of 'req.body' as it is undefined." |}.

(** [router.post('/', ...)] *)
Definition post_root : middleware := fun ev req st =>
  match req_body req with
  | None => (st, Throw destructure_error)
  | Some body =>
      let name := default JUndefined (body !! "name") in
      let st' :=
        set_users
          (users st ++
           [ {| id := random_id (Math_random ev); name := name; tasks := [] |} ])
          st in
      (st', Done (Redirect 302 "users"))
  end.

(** [router.post('/:id/delete', ...)] *)
Definition delete_user : middleware := fun ev req st =>
  (st, Done (Send 200 "Delete user")).

(** [router.post('/:id/tasks', ...)] *)
Definition create_task : middleware := fun ev req st =>
  (st, Done (Send 200 "Create task")).

(** [router.post('/:id/tasks/:taskId/delete', ...)] *)
Definition delete_task : middleware := fun ev req st =>
  (st, Done (Send 200 "Delete task")).

(** A path pattern, one item per segment: a literal, or a named
    parameter [:name]. *)
Inductive segment := Lit (s : string) | Param (name : string).

(** Express compares the literal parts of a path without regard to the
    case of ASCII letters. *)
Definition lower_ascii (c : ascii) : ascii :=
  let n := nat_of_ascii c in
  if (65 <=? n)%nat && (n <=? 90)%nat then ascii_of_nat (n + 32) else c.

Fixpoint lower (s : string) : string :=
  match s with
  | EmptyString => EmptyString
  | String c s' => String (lower_ascii c) (lower s')
  end.

Definition eqb_ci (s1 s2 : string) : bool := String.eqb (lower s1) (lower s2).

(** Whether a path matches a pattern the way a route of Express does: a
    literal matches itself, a parameter any non-empty segment, and one
    trailing slash is allowed. *)
Fixpoint match_path (pattern : list segment) (path : list string) : bool :=
  match pattern, path with
  | [], [] => true
  | [], [last] => String.eqb last ""
  | Lit s :: pattern', seg :: path' =>
      eqb_ci s seg && match_path pattern' path'
  | Param _ :: pattern', seg :: path' =>
      negb (String.eqb seg "") && match_path pattern' path'
  | _, _ => false
  end.

(** Express decodes the parameters of a path that matches, in order; the
    first one [decodeURIComponent] refuses, if any. *)
Fixpoint undecodable (ev : env) (pattern : list segment) (path : list string)
    : option string :=
  match pattern, path with
  | Param _ :: pattern', seg :: path' =>
      match decodeURIComponent ev seg with
      | None => Some seg
      | Some _ => undecodable ev pattern' path'
      end
  | Lit _ :: pattern', _ :: path' => undecodable ev pattern' path'
  | _, _ => None
  end.

(** The error Express makes of that [URIError]. *)
Definition decode_error (val : string) : error :=
  {| err_name := "URIError";
     err_message := "Failed to decode param '" +:+ val +:+ "'" |}.

(** A route answers its own method; a GET route also answers HEAD. *)
Definition match_method (route_method request_method : method) : bool :=
  bool_decide (route_method = request_method)
  || (bool_decide (route_method = GET) && bool_decide (request_method = HEAD)).

Record route := {
  route_method : method;
  route_pattern : list segment;
  route_handler : middleware;
}.

(** The bindings of the router, in the order [routes/user.js] makes
    them. *)
Definition routes : list route :=
  [ {| route_method := GET; route_pattern := [];
       route_handler := get_root |};
    {| route_method := POST; route_pattern := [];
       route_handler := post_root |};
    {| route_method := POST; route_pattern := [Param "id"; Lit "delete"];
       route_handler := delete_user |};
    {| route_method := POST; route_pattern := [Param "id"; Lit "tasks"];
       route_handler := create_task |};
    {| route_method := POST;
       route_pattern := [Param "id"; Lit "tasks"; Param "taskId"; Lit "delete"];
       route_handler := delete_task |} ].

(** A router goes through its bindings in order. A binding whose path
    matches but whose parameters do not decode leaves a pending error,
    after which no binding is run; otherwise the first binding whose
    path and method match is run. A handler that calls [next()] hands
    over to the bindings after it, and when none is left the router
    passes the pending error, or else calls [next()]. *)
Fixpoint run_routes (rs : list route) (pending : option error) : middleware :=
  fun ev req st =>
  match rs with
  | [] =>
      (st, match pending with Some e => NextErr e | None => Next req end)
  | r :: rs' =>
      if match_path (route_pattern r) (req_path req) then
        match undecodable ev (route_pattern r) (req_path req) with
        | Some val =>
            run_routes rs' (Some (default (decode_error val) pending)) ev req st
        | None =>
            match pending with
            | Some _ => run_routes rs' pending ev req st
            | None =>
                if match_method (route_method r) (req_method req) then
                  match route_handler r ev req st with
                  | (st', Next req') => run_routes rs' None ev req' st'
                  | result => result
                  end
                else run_routes rs' None ev req st
            end
        end
      else run_routes rs' pending ev req st
  end.

(** [module.exports = router] *)
Definition router : middleware := run_routes routes None.

End Users.

(** ** [index.js] *)

Module App.
Import JSNumber Http Store.

(** [logRequestInfo] *)
Definition logRequestInfo : middleware := fun ev req st =>
  (print (Log (method_name (req_method req) +:+ " " +:+ originalUrl req)) st,
   Next req).

(** [logRequestTime] *)
Definition logRequestTime : middleware := fun ev req st =>
  (print (Log ("Time: " +:+ toLocaleTimeString ev)) st, Next req).

(** [app.get('/', ...)]: [res.redirect('users')] *)
Definition root_redirect : middleware := fun ev req st =>
  (st, Done (Redirect 302 "users")).

(** [onError] *)
Definition onError : error_middleware := fun err ev req st =>
  (print (Error None err) st,
   Done (Send 500 ("Something went wrong: " +:+ err_message err))).

(** The middlewares Express builds act on the exchange alone. *)
Definition external (f : env -> request -> outcome) : middleware :=
  fun ev req st => (st, f ev req).

(** The stages [index.js] registers. *)
Inductive stage :=
  | StaticAssets
  | JsonBody
  | UrlencodedBody
  | LogRequestInfo
  | LogRequestTime
  | RootRedirect
  | UsersRouter
  | OnError.

#[export] Instance stage_eq_dec : EqDecision stage.
Proof. solve_decision. Defined.

(** Where a stage applies: [app.use(fn)] everywhere, [app.use(path, fn)]
    under a path prefix, [app.get(path, fn)] on one method and path. *)
Inductive scope :=
  | Everywhere
  | Mounted (prefix : string)
  | Routed (m : method) (pattern : list Users.segment).

(** A function of three parameters is a middleware, one of four an
    error-handling middleware. *)
Inductive callback :=
  | Handler (f : middleware)
  | ErrorHandler (f : error_middleware).

Record layer := {
  layer_stage : stage;
  layer_scope : scope;
  layer_callback : callback;
}.

(** The stack of the application, in the order of the [app.use] and
    [app.get] calls of [index.js]. *)
Definition stack : list layer :=
  [ {| layer_stage := StaticAssets; layer_scope := Everywhere;
       layer_callback := Handler (external express_static) |};
    {| layer_stage := JsonBody; layer_scope := Everywhere;
       layer_callback := Handler (external express_json) |};
    {| layer_stage := UrlencodedBody; layer_scope := Everywhere;
       layer_callback := Handler (external express_urlencoded) |};
    {| layer_stage := LogRequestInfo; layer_scope := Everywhere;
       layer_callback := Handler logRequestInfo |};
    {| layer_stage := LogRequestTime; layer_scope := Everywhere;
       layer_callback := Handler logRequestTime |};
    {| layer_stage := RootRedirect; layer_scope := Routed GET [];
       layer_callback := Handler root_redirect |};
    {| layer_stage := UsersRouter; layer_scope := Mounted "users";
       layer_callback := Handler Users.router |};
    {| layer_stage := OnError; layer_scope := Everywhere;
       layer_callback := ErrorHandler onError |} ].

(** The path a mounted callback is given, from what follows the prefix:
    the root for nothing or a lone slash, and one slash less where two
    follow the prefix. *)
Definition unmount (rest : list string) : list string :=
  match rest with
  | [] => [""]
  | "" :: (_ :: _) as rest' => rest'
  | _ => rest
  end.

(** Whether a layer applies to a request, and the request its callback
    is given: a mounted callback sees the path with the prefix taken
    off. *)
Definition enter (sc : scope) (req : request) : option request :=
  match sc with
  | Everywhere => Some req
  | Mounted prefix =>
      match req_path req with
      | first :: rest =>
          if Users.eqb_ci prefix first
          then Some (with_path (unmount rest) req)
          else None
      | [] => None
      end
  | Routed m pattern =>
      if Users.match_method m (req_method req)
         && Users.match_path pattern (req_path req)
      then Some req else None
  end.

(** The request the stack goes on with after a callback has called
    [next()]: the path a mounted callback was given is put back. *)
Definition leave (sc : scope) (req inner : request) : request :=
  match sc with
  | Mounted _ => with_path (req_path req) inner
  | Everywhere | Routed _ _ => inner
  end.

(** The result of handling one request: the state it leaves, the
    response, and the stages whose callback was called, in order. *)
Definition result : Type := state * response * list stage.

Definition state_of (r : result) : state := fst (fst r).
Definition response_of (r : result) : response := snd (fst r).
Definition trace_of (r : result) : list stage := snd r.

Definition visit (s : stage) (r : result) : result :=
  let '(st, resp, trace) := r in (st, resp, s :: trace).

(** The final handler of Express: 404 when no layer has answered, 500
    when an error is left without an error handler. *)
Definition final (err : option error) : response :=
  match err with
  | None => Final 404
  | Some _ => Final 500
  end.

(** The dispatch loop of Express. Without a pending error it calls the
    next matching middleware and skips error handlers; once a callback
    has thrown or called [next(err)] it skips to the next matching error
    handler. A callback that ends the exchange ends the loop. (The reply
    Express itself gives to an OPTIONS request no handler has answered
    is left out: such a request ends at the final handler.) *)
Fixpoint dispatch (ev : env) (layers : list layer) (err : option error)
    (req : request) (st : state) : result :=
  match layers with
  | [] => (st, final err, [])
  | l :: rest =>
      match enter (layer_scope l) req with
      | None => dispatch ev rest err req st
      | Some inner =>
          let continue (r : state * outcome) : result :=
            visit (layer_stage l)
              match r with
              | (st', Next req') =>
                  dispatch ev rest None (leave (layer_scope l) req req') st'
              | (st', NextErr e) | (st', Throw e) =>
                  dispatch ev rest (Some e) req st'
              | (st', Done resp) => (st', resp, [])
              end in
          match err, layer_callback l with
          | None, Handler f => continue (f ev inner st)
          | Some e, ErrorHandler f => continue (f e ev inner st)
          | _, _ => dispatch ev rest err req st
          end
      end
  end.

(** The application: every request enters the stack at its top. *)
Definition handle (ev : env) (req : request) (st : state) : result :=
  dispatch ev stack None req st.

End App.

(** ** The models module and the start of the process *)

Module Models.
Import Http Store.

Inductive datatype := STRING | INTEGER | DATE.

(** A table of the database: its columns, and its foreign keys as pairs
    of a column and the table it refers to. *)
Record table := {
  columns : list (string * datatype);
  foreign_keys : list (string * string);
}.

(** A model made by [sequelize.define]: its name, its attributes, and
    the foreign keys that associations declared on it give its table. *)
Record model := {
  modelName : string;
  attributes : list (string * datatype);
  associations : list (string * string);
}.

(** [const User = sequelize.define('user', { name: { type: Sequelize.STRING } })] *)
Definition User : model :=
  {| modelName := "user"; attributes := [("name", STRING)];
     associations := [] |}.

(** The models defined on the [sequelize] instance. *)
Definition models : list model := [User].

(** Sequelize names the table with the plural of the model name (for a
    regular noun such as [user], the name with an [s]), and adds the
    primary key and the two timestamps to its attributes. *)
Definition tableName (m : model) : string := modelName m +:+ "s".

Definition table_of (m : model) : table :=
  {| columns :=
       ("id", INTEGER) :: attributes m ++ [("createdAt", DATE); ("updatedAt", DATE)];
     foreign_keys := associations m |}.

(** [CREATE TABLE IF NOT EXISTS] *)
Definition create_table_if_not_exists (m : model)
    (db : gmap string table) : gmap string table :=
  match db !! tableName m with
  | Some _ => db
  | None => <[tableName m := table_of m]> db
  end.

(** What [sequelize.sync()] does to the schema when it succeeds: one
    [CREATE TABLE IF NOT EXISTS] per model. *)
Definition sync_schema (db : gmap string table) : gmap string table :=
  foldl (fun db m => create_table_if_not_exists m db) db models.

(** The database engine at startup: whether [authenticate] and [sync]
    are rejected, and with what error. A rejected [sync] is taken to
    leave the schema as it was. *)
Record engine := {
  authenticate_error : option error;
  sync_error : option error;
}.

(** How the promise of an [async] function settles. *)
Inductive settled := Resolved | Rejected (e : error).

Record process := {
  schema : gmap string table;
  output : list entry;
}.

(** [dbInit] *)
Definition dbInit (db : engine) (p : process) : process * settled :=
  let out :=
    match authenticate_error db with
    | None =>
        output p ++ [Log "Connection has been established successfully."]
    | Some e =>
        output p ++ [Error (Some "Unable to dbInit to the database:") e]
    end in
  match sync_error db with
  | Some e => ({| schema := schema p; output := out |}, Rejected e)
  | None => ({| schema := sync_schema (schema p); output := out |}, Resolved)
  end.

(** What Node does with a promise rejected without a handler: a warning
    on the console (the default of Node 12, the version the README asks
    for), or an uncaught exception that ends the process with exit code
    1 (the default from Node 15 on). *)
Inductive unhandled_rejections := WarnOnly | ThrowUncaught.

(** The start of [index.js]: [dbInit()] is called and its promise is
    dropped, neither awaited nor given a rejection handler; the stack
    is registered and [app.listen] is called without waiting for it. *)
Record started := {
  after_init : process;
  listening : bool;
  unhandled_rejection : option error;
  exit_code : option nat;
}.

Definition main (mode : unhandled_rejections) (db : engine) (p : process)
    : started :=
  let '(p', promise) := dbInit db p in
  {| after_init := p';
     listening := true;
     unhandled_rejection :=
       match promise with Resolved => None | Rejected e => Some e end;
     exit_code :=
       match promise, mode with
       | Rejected _, ThrowUncaught => Some 1
       | _, _ => None
       end |}.

End Models.

(** ** Notions the properties are stated with *)

Module Runs.
Import JSNumber Http Store.

(** The three middlewares of Express have handed the request on, as
    [decoded], to the stages of the repository. *)
Definition passes (ev : env) (req decoded : request) : Prop :=
  exists r1 r2,
    express_static ev req = Next r1 /\
    express_json ev r1 = Next r2 /\
    express_urlencoded ev r2 = Next decoded.

(** The stages every request goes through first, and the layers of the
    stack after them. *)
Definition parsing : list App.stage :=
  [App.StaticAssets; App.JsonBody; App.UrlencodedBody;
   App.LogRequestInfo; App.LogRequestTime].

Definition routing : list App.layer := drop 5 App.stack.

Definition through_logging (r : App.result) : App.result :=
  App.visit App.StaticAssets (App.visit App.JsonBody (App.visit App.UrlencodedBody
    (App.visit App.LogRequestInfo (App.visit App.LogRequestTime r)))).

(** The order of the stages as the specification lists them. *)
Definition listed_stages : list App.stage :=
  parsing ++ [App.UsersRouter; App.OnError].

(** The two lines the logging stages print for a request. *)
Definition logged (ev : env) (req : request) (st : state) : state :=
  print (Log ("Time: " +:+ toLocaleTimeString ev))
    (print (Log (method_name (req_method req) +:+ " " +:+ originalUrl req)) st).

(** The states the process can be in: the initial one, and the one any
    request leaves behind. *)
Inductive reachable : state -> Prop :=
  | reachable_initial : reachable initial
  | reachable_handle ev req st :
      is_random (Math_random ev) = true ->
      reachable st ->
      reachable (App.state_of (App.handle ev req st)).

(** A sequence of create-user operations, each with the environment it
    runs in. *)
Definition create_users (ops : list (env * request)) (st : state) : state :=
  foldl (fun s op => fst (Users.post_root (fst op) (snd op) s)) st ops.

(** The identifier found in a URL names one of the users. *)
Definition resolves (segment : string) (us : list user) : Prop :=
  exists u, u ∈ us /\ to_string (id u) = segment.

Definition task_count (us : list user) : nat :=
  sum_list (map (fun u => length (tasks u)) us).

Definition is_named (s : string) (u : user) : bool :=
  match name u with
  | JStr s' => String.eqb s s'
  | _ => false
  end.

(** The response of [onError] to an error. *)
Definition error_page (e : error) : response :=
  Send 500 ("Something went wrong: " +:+ err_message e).

(** What becomes of the outcome of the router in the stack: its
    response, the final 404 when it has called [next()], the response of
    [onError] when it has failed. *)
Definition after_router (r : state * outcome) : App.result :=
  App.visit App.UsersRouter
    match r with
    | (st', Next req') => (st', Final 404, [])
    | (st', NextErr e) | (st', Throw e) =>
        (print (Error None e) st', error_page e, [App.OnError])
    | (st', Done resp) => (st', resp, [])
    end.

(** [onError] has answered an error of the given name. *)
Definition fails_with (kind : string) (res : App.result) : Prop :=
  exists e, err_name e = kind /\ App.response_of res = error_page e.

(** The schema has the tables of both models, tasks referring to users. *)
Definition has_users_and_tasks (db : gmap string Models.table) : Prop :=
  exists u t,
    db !! "users" = Some u /\ db !! "tasks" = Some t /\
    ("userId", "users") ∈ Models.foreign_keys t.

(** An environment in which the middlewares of Express hand every
    request on unchanged, [Math.random()] returns [r], every view
    renders and every parameter decodes (to itself, as one without
    escapes does). *)
Definition quiet (r : spec_float) : env :=
  {| Math_random := r;
     toLocaleTimeString := "12:00:00";
     decodeURIComponent := Some;
     express_static := Next;
     express_json := Next;
     express_urlencoded := Next;
     render := fun _ _ => inr "<html></html>" |}.

(** The double nearest to 0.1. *)
Definition tenth : spec_float := S754_finite false 7205759403792794 (-56).

Definition form (m : method) (path : list string) (fields : list (string * jsval))
    : request :=
  {| req_method := m; req_path := path; req_query := None;
     req_body := Some (list_to_map fields) |}.

(** An identifier that is an integer from 0 to 10. *)
Definition small_id (i : number) : Prop :=
  exists n : Z, i = NInt n /\ (0 <= n <= 10)%Z.

(** The identifiers a sequence of create-user operations draws. *)
Definition drawn (ops : list (env * request)) : list number :=
  map (fun op => random_id (Math_random (fst op))) ops.

(** An environment in which the JSON body parser rejects the body. *)
Definition malformed : error :=
  {| err_name := "SyntaxError"; err_message := "Unexpected token } in JSON" |}.

Definition rejecting_json : env :=
  {| Math_random := tenth; toLocaleTimeString := "12:00:00";
     decodeURIComponent := Some;
     express_static := Next; express_json := fun _ => NextErr malformed;
     express_urlencoded := Next; render := fun _ _ => inr "" |}.

(** A database engine that accepts everything, and a process that
    starts on an empty database. *)
Definition healthy : Models.engine :=
  {| Models.authenticate_error := None; Models.sync_error := None |}.

Definition fresh : Models.process :=
  {| Models.schema := ∅; Models.output := [] |}.

End Runs.

(** ** The asynchronous-code snippets *)

(** The snippets read two files and delete them, each in one style:
    exceptions, callbacks, an event emitter, promises, [async]/[await].
    They leave [somethingBadHappened], [files] and [deleteFiles] free:
    the first two are parameters here, and of [deleteFiles] the model
    keeps what the snippets rely on, that it is called with the files
    and fails or not, in the way of each style. *)

Module Async.
Import Http Store.

(** [new Error('Something crashed')] *)
Definition crashed : error :=
  {| err_name := "Error"; err_message := "Something crashed" |}.

Section Snippets.

(** The type of the free variable [files], and an argument as a function
    receives it: [undefined] when the caller passed none. *)
Variable F : Type.
Variable somethingBadHappened : bool.
Variable files : F.

(** Whether [deleteFiles] fails on the argument it is given. *)
Variable delete_error : option F -> option error.

(** What a snippet can be seen to do: the lines it prints and the calls
    of [deleteFiles] it makes. *)
Record world := {
  printed : list entry;
  deletions : list (option F);
}.

Definition console_log (line : string) (w : world) : world :=
  {| printed := printed w ++ [Log line]; deletions := deletions w |}.

Definition console_error (e : error) (w : world) : world :=
  {| printed := printed w ++ [Error None e]; deletions := deletions w |}.

Definition called (fs : option F) (w : world) : world :=
  {| printed := printed w; deletions := deletions w ++ [fs] |}.

(** A computation that returns or throws; a promise, once settled, is
    the same thing: fulfilled with a value or rejected with an error. *)
Definition result (A : Type) : Type := world * (error + A).

(** *** Exceptions *)

Definition readFiles (names : list string) (w : world) : result F :=
  if somethingBadHappened then (w, inl crashed) else (w, inr files).

Definition deleteFiles (fs : option F) (w : world) : result unit :=
  match delete_error fs with
  | Some e => (called fs w, inl e)
  | None => (called fs w, inr tt)
  end.

(** [try { ... } catch(err) { console.error(err); }] *)
Definition with_exceptions (w : world) : world :=
  let body : result unit :=
    match readFiles ["file1"; "file2"] w with
    | (w1, inl err) => (w1, inl err)
    | (w1, inr fs) =>
        match deleteFiles (Some fs) w1 with
        | (w2, inl err) => (w2, inl err)
        | (w2, inr _) => (console_log "Files deleted" w2, inr tt)
        end
    end in
  match body with
  | (w', inl err) => console_error err w'
  | (w', inr _) => w'
  end.

(** *** Callbacks *)

Definition readFiles_callback (names : list string)
    (callback : option error -> option F -> world -> world) (w : world) : world :=
  if somethingBadHappened then callback (Some crashed) None w
  else callback None (Some files) w.

Definition deleteFiles_callback (fs : option F)
    (callback : option error -> world -> world) (w : world) : world :=
  callback (delete_error fs) (called fs w).

Definition with_callbacks (w : world) : world :=
  readFiles_callback ["file1"; "file2"]
    (fun err fs w1 =>
       match err with
       | Some e => console_error e w1
       | None =>
           deleteFiles_callback fs
             (fun err w2 =>
                match err with
                | Some e => console_error e w2
                | None => console_log "Files deleted" w2
                end) w1
       end) w.

(** *** Promises *)

Definition promise (A : Type) : Type := world -> result A.

(** [p.then(f)] and [p.catch(h)] *)
Definition and_then {A B : Type} (p : promise A) (f : A -> promise B)
    : promise B :=
  fun w => match p w with
           | (w1, inl e) => (w1, inl e)
           | (w1, inr a) => f a w1
           end.

Definition or_catch {A : Type} (p : promise A) (h : error -> promise A)
    : promise A :=
  fun w => match p w with
           | (w1, inl e) => h e w1
           | (w1, inr a) => (w1, inr a)
           end.

(** [new Promise((resolve, reject) => ...)] *)
Definition readFiles_promise (names : list string) : promise F :=
  fun w => if somethingBadHappened then (w, inl crashed) else (w, inr files).

Definition deleteFiles_promise (fs : option F) : promise unit :=
  fun w => match delete_error fs with
           | Some e => (called fs w, inl e)
           | None => (called fs w, inr tt)
           end.

Definition with_promises : promise unit :=
  or_catch
    (and_then
       (and_then (readFiles_promise ["file1"; "file2"])
          (fun fs => deleteFiles_promise (Some fs)))
       (fun _ w => (console_log "Files deleted" w, inr tt)))
    (fun err w => (console_error err w, inr tt)).

(** *** [async] and [await] *)

(** [doReadFiles]: the [try] around the two [await]s and the
    [console.log], and the promise the function returns. *)
Definition doReadFiles : promise unit :=
  or_catch
    (and_then (readFiles_promise ["file1"; "file2"])
       (fun fs =>
          and_then (deleteFiles_promise (Some fs))
            (fun _ w => (console_log "Files deleted" w, inr tt))))
    (fun err w => (console_error err w, inr tt)).

(** *** The event emitter *)

(** The argument of an event, the listeners of an emitter in the order
    they were added, [emitter.on] and [emitter.emit]: [emit] calls the
    listeners the emitter has for the event at that moment. *)
Inductive argument := NoArgument | Files (fs : F) | Failure (e : error).

Definition listener : Type := argument -> world -> world.

Definition emitter : Type := list (string * listener).

Definition on (event : string) (l : listener) (em : emitter) : emitter :=
  em ++ [(event, l)].

Definition emit (event : string) (a : argument) (em : emitter) (w : world)
    : world :=
  foldl (fun w' l => if String.eqb (fst l) event then snd l a w' else w')
    w em.

(** [deleteFiles] in this style: it is given what the listener got, and
    returns an emitter. *)
Variable deleteFiles_emitter : argument -> world -> emitter * world.

Definition readFiles_emitter (names : list string) (w : world)
    : emitter * world :=
  let em : emitter := [] in
  let w' :=
    if somethingBadHappened then emit "ERROR" (Failure crashed) em w
    else emit "COMPLETE" (Files files) em w in
  (em, w').

(** The listener for [COMPLETE]: it calls [deleteFiles] and adds two
    listeners to the emitter that returns. *)
Definition on_complete : listener := fun a w =>
  let '(em, w1) := deleteFiles_emitter a w in
  let em1 := on "COMPLETE" (fun _ => console_log "Files deleted") em in
  let em2 :=
    on "ERROR"
      (fun a' w' => match a' with
                    | Failure e => console_error e w'
                    | _ => w'
                    end) em1 in
  w1.

Definition on_error : listener := fun a w =>
  match a with
  | Failure e => console_error e w
  | _ => w
  end.

Definition with_emitter (w : world) : emitter * world :=
  let '(em, w1) := readFiles_emitter ["file1"; "file2"] w in
  (on "ERROR" on_error (on "COMPLETE" on_complete em), w1).

End Snippets.

Arguments printed {F} _.
Arguments deletions {F} _.

End Async.

(** ** More notions the properties are stated with *)

Module Cases.
Import JSNumber Http Store.

(** A request with no body, as one that no body parser has touched. *)
Definition bare (m : method) (path : list string) : request :=
  {| req_method := m; req_path := path; req_query := None; req_body := None |}.

(** An environment in which the view does not render. *)
Definition broken_view : error :=
  {| err_name := "Error"; err_message := "Failed to lookup view" |}.

Definition unrendered : env :=
  {| Math_random := Runs.tenth; toLocaleTimeString := "12:00:00";
     decodeURIComponent := Some;
     express_static := Next; express_json := Next;
     express_urlencoded := Next; render := fun _ _ => inl broken_view |}.

(** An environment in which the static stage serves a file. *)
Definition serving : env :=
  {| Math_random := Runs.tenth; toLocaleTimeString := "12:00:00";
     decodeURIComponent := Some;
     express_static := fun _ => Done (Send 200 "body { }");
     express_json := Next;
     express_urlencoded := Next; render := fun _ _ => inr "" |}.

(** A Number [Math.random()] can return for which the identifier drawn
    is [n], for [n] from 0 to 10: the double nearest to [2n/21]. *)
Definition draw_for (n : Z) : spec_float :=
  SFdiv prec emax (of_Z (2 * n)) (of_Z 21).

(** The request is for the root of the router of [/users]. *)
Definition users_root (r : request) : Prop :=
  exists first rest,
    req_path r = first :: rest /\
    Users.eqb_ci "users" first = true /\
    Users.match_path [] (App.unmount rest) = true.

End Cases.

(** * Properties *)

(** ** The range of [Math.round(Math.random() * 10)] *)

Section NumberFacts.
Import JSNumber.
Local Open Scope Z_scope.


Lemma digits2_pos_bounds (p : positive) :
  2 ^ (Zpos (digits2_pos p) - 1) <= Zpos p < 2 ^ Zpos (digits2_pos p).
Proof.
  induction p as [p IH | p IH |]; cbn [digits2_pos].
  - rewrite Pos2Z.inj_succ.
    replace (Z.succ (Zpos (digits2_pos p)) - 1) with (Z.succ (Zpos (digits2_pos p) - 1)) by lia.
    rewrite !Z.pow_succ_r by lia.
    revert IH. generalize (2 ^ (Zpos (digits2_pos p) - 1)) (2 ^ Zpos (digits2_pos p)). lia.
  - rewrite Pos2Z.inj_succ.
    replace (Z.succ (Zpos (digits2_pos p)) - 1) with (Z.succ (Zpos (digits2_pos p) - 1)) by lia.
    rewrite !Z.pow_succ_r by lia.
    revert IH. generalize (2 ^ (Zpos (digits2_pos p) - 1)) (2 ^ Zpos (digits2_pos p)). lia.
  - cbn. lia.
Qed.

Lemma Zdigits2_upper (z k : Z) :
  0 <= z -> 0 <= k -> z < 2 ^ k -> Zdigits2 z <= k.
Proof.
  intros Hz Hk Hlt. destruct z as [| p | p]; cbn [Zdigits2]; [lia | | lia].
  destruct (digits2_pos_bounds p) as [Hlo _].
  destruct (Z_le_gt_dec (Zpos (digits2_pos p)) k) as [|Hgt]; [assumption|].
  exfalso.
  assert (2 ^ k <= 2 ^ (Zpos (digits2_pos p) - 1)) by (apply Z.pow_le_mono_r; lia).
  lia.
Qed.

Lemma shr_1_bounds (mrs : shr_record) :
  0 <= shr_m mrs -> 0 <= shr_m (shr_1 mrs) /\ shr_m (shr_1 mrs) * 2 <= shr_m mrs.
Proof.
  destruct mrs as [m r s]; cbn [shr_m]. intros Hm.
  destruct m as [| [p | p |] | p]; cbn; lia.
Qed.

Lemma iter_pos_shr_1_bounds (p : positive) (mrs : shr_record) :
  0 <= shr_m mrs ->
  0 <= shr_m (SpecFloat.iter_pos shr_1 p mrs) /\
  shr_m (SpecFloat.iter_pos shr_1 p mrs) * 2 ^ Zpos p <= shr_m mrs.
Proof.
  revert mrs.
  induction p as [p IH | p IH |]; intros mrs Hm; cbn [SpecFloat.iter_pos].
  - destruct (shr_1_bounds mrs Hm) as [H0 H1].
    destruct (IH _ H0) as [H2 H3]. destruct (IH _ H2) as [H4 H5].
    split; [assumption|].
    replace (Zpos p~1) with (Zpos p + Zpos p + 1) by lia.
    rewrite !Z.pow_add_r by lia. change (2 ^ 1) with 2.
    assert (0 < 2 ^ Zpos p) by (apply Z.pow_pos_nonneg; lia).
    nia.
  - destruct (IH _ Hm) as [H2 H3]. destruct (IH _ H2) as [H4 H5].
    split; [assumption|].
    replace (Zpos p~0) with (Zpos p + Zpos p) by lia.
    rewrite !Z.pow_add_r by lia.
    assert (0 < 2 ^ Zpos p) by (apply Z.pow_pos_nonneg; lia).
    nia.
  - destruct (shr_1_bounds mrs Hm). change (2 ^ 1) with 2. split; lia.
Qed.

(** [shr] moves the exponent up by [Z.max 0 n] and divides the mantissa. *)
Lemma shr_bounds (mrs : shr_record) (e n : Z) :
  0 <= shr_m mrs ->
  snd (shr mrs e n) = e + Z.max 0 n /\
  0 <= shr_m (fst (shr mrs e n)) /\
  shr_m (fst (shr mrs e n)) * 2 ^ Z.max 0 n <= shr_m mrs.
Proof.
  intros Hm. destruct n as [| p | p]; cbn [shr fst snd].
  - change (Z.max 0 0) with 0. change (2 ^ 0) with 1. lia.
  - replace (Z.max 0 (Zpos p)) with (Zpos p) by lia.
    destruct (iter_pos_shr_1_bounds p mrs Hm). lia.
  - replace (Z.max 0 (Zneg p)) with 0 by lia. change (2 ^ 0) with 1. lia.
Qed.

Lemma round_nearest_even_bounds (m : Z) (l : location) :
  m <= round_nearest_even m l <= m + 1.
Proof.
  destruct l as [| []]; cbn [round_nearest_even]; try lia.
  destruct (Z.even m); lia.
Qed.

Lemma pow2_pos (k : Z) : 0 <= k -> 0 < 2 ^ k.
Proof. intros. apply Z.pow_pos_nonneg; lia. Qed.

(** Dividing a bound by the power of two a shift has removed. *)
Lemma shifted_below (q M c e e' : Z) :
  e <= e' -> e' <= 0 ->
  q * 2 ^ (e' - e) <= M -> M < c * 2 ^ (- e) -> q < c * 2 ^ (- e').
Proof.
  intros Hee He' Hq HM.
  replace (- e) with (- e' + (e' - e)) in HM by lia.
  rewrite Z.pow_add_r in HM by lia.
  pose proof (pow2_pos (e' - e) ltac:(lia)).
  nia.
Qed.

Lemma fexp_below (z e : Z) :
  0 <= z -> e <= -49 -> z < 16 * 2 ^ (- e) ->
  e + Z.max 0 (fexp prec emax (Zdigits2 z + e) - e) <= -49.
Proof.
  intros Hz He Hlt.
  assert (Zdigits2 z <= 4 - e) as Hd.
  { apply Zdigits2_upper; [lia | lia |].
    replace (4 - e) with (4 + - e) by lia. rewrite Z.pow_add_r by lia.
    change (2 ^ 4) with 16. assumption. }
  unfold fexp, SpecFloat.emin, prec, emax. lia.
Qed.

Lemma binary_round_aux_below_ten (M : positive) (E : Z) :
  E <= -49 -> Zpos M < 10 * 2 ^ (- E) ->
  match binary_round_aux prec emax false (Zpos M) E loc_Exact with
  | S754_zero false => True
  | S754_finite false m e => e <= -49 /\ Zpos m <= 10 * 2 ^ (- e)
  | _ => False
  end.
Proof.
  intros HE HM. unfold binary_round_aux, shr_fexp.
  pose proof (pow2_pos (- E) ltac:(lia)) as HpE.
  pose proof (fexp_below (Zpos M) E ltac:(lia) HE ltac:(lia)) as Hf1.
  pose proof (shr_bounds (shr_record_of_loc (Zpos M) loc_Exact) E
                (fexp prec emax (Zdigits2 (Zpos M) + E) - E)) as H1.
  destruct (shr (shr_record_of_loc (Zpos M) loc_Exact) E
              (fexp prec emax (Zdigits2 (Zpos M) + E) - E)) as [mrs1 e1].
  cbn [fst snd shr_record_of_loc shr_m] in H1.
  destruct H1 as (He1 & Hq0 & Hq); [lia|].
  pose proof (round_nearest_even_bounds (shr_m mrs1) (loc_of_shr_record mrs1)) as Hm1.
  set (m1 := round_nearest_even (shr_m mrs1) (loc_of_shr_record mrs1)) in *.
  assert (e1 <= -49) as He1' by lia.
  assert (shr_m mrs1 < 10 * 2 ^ (- e1)) as Hq'.
  { apply (shifted_below _ (Zpos M) _ E); [lia | lia | | assumption].
    replace (e1 - E) with (Z.max 0 (fexp prec emax (Zdigits2 (Zpos M) + E) - E)) by lia.
    assumption. }
  pose proof (pow2_pos (- e1) ltac:(lia)) as Hpe1.
  pose proof (fexp_below m1 e1 ltac:(lia) He1' ltac:(lia)) as Hf2.
  pose proof (shr_bounds (shr_record_of_loc m1 loc_Exact) e1
                (fexp prec emax (Zdigits2 m1 + e1) - e1)) as H2.
  destruct (shr (shr_record_of_loc m1 loc_Exact) e1
              (fexp prec emax (Zdigits2 m1 + e1) - e1)) as [mrs2 e2].
  cbn [fst snd shr_record_of_loc shr_m] in H2.
  destruct H2 as (He2 & Hr0 & Hr); [lia|].
  assert (e2 <= -49) as He2' by lia.
  assert (shr_m mrs2 <= 10 * 2 ^ (- e2)) as Hfin.
  { replace (Z.max 0 (fexp prec emax (Zdigits2 m1 + e1) - e1)) with (e2 - e1) in Hr by lia.
    assert (shr_m mrs2 * 2 ^ (e2 - e1) <= 10 * 2 ^ (- e1)) as Hle by lia.
    replace (- e1) with (- e2 + (e2 - e1)) in Hle by lia.
    rewrite Z.pow_add_r in Hle by lia.
    pose proof (pow2_pos (e2 - e1) ltac:(lia)). nia. }
  destruct (shr_m mrs2) as [| m2 | m2]; [exact I | | lia].
  replace (e2 <=? emax - prec) with true
    by (symmetry; apply Z.leb_le; unfold emax, prec; lia).
  split; assumption.
Qed.


Lemma is_random_finite (m : positive) (e : Z) :
  is_random (S754_finite false m e) = true ->
  e <= -53 /\ Zpos m < 2 ^ 53.
Proof.
  cbn [is_random]. intros H. apply andb_prop in H as [Hb Hlt].
  unfold bounded, canonical_mantissa in Hb.
  apply andb_prop in Hb as [Hc _]. apply Z.eqb_eq in Hc.
  destruct (digits2_pos_bounds m) as [Hlo Hhi].
  unfold fexp, SpecFloat.emin, prec, emax in Hc.
  assert (Zpos (digits2_pos m) <= 53) as Hd by (clear - Hc; lia).
  assert (Zpos m < 2 ^ 53) as Hm.
  { eapply Z.lt_le_trans; [exact Hhi|]. apply Z.pow_le_mono_r; [lia | exact Hd]. }
  split; [|assumption].
  change (of_Z 1) with (S754_finite false 4503599627370496 (-52)) in Hlt.
  unfold SFltb in Hlt. cbn [SFcompare] in Hlt.
  destruct (Z.compare_spec e (-52)) as [Heq | Hl | Hg];
    [| clear - Hl; lia | discriminate].
  exfalso. subst e.
  assert (Zpos (digits2_pos m) = 53) as Hd53 by (clear - Hc Hd; lia).
  rewrite Hd53 in Hlo. change (2 ^ (53 - 1)) with 4503599627370496 in Hlo.
  destruct (Pos.compare_cont Eq m 4503599627370496) eqn:Hcmp;
    try discriminate Hlt.
  apply (proj1 (Pos.compare_lt_iff m 4503599627370496)) in Hcmp.
  apply Pos2Z.pos_lt_pos in Hcmp.
  clear - Hcmp Hlo. lia.
Qed.



Lemma round_half_up_range (m : positive) (e : Z) :
  e < 0 -> Zpos m <= 10 * 2 ^ (- e) ->
  0 <= round_half_up false m e <= 10.
Proof.
  intros He Hm. unfold round_half_up. cbn [cond_Zopp].
  destruct (Z.leb_spec 0 e) as [Hge | _]; [lia|].
  replace (1 - e) with (1 + - e) by lia.
  rewrite Z.pow_add_r by lia. change (2 ^ 1) with 2.
  pose proof (pow2_pos (- e) ltac:(lia)) as Hp.
  revert Hm Hp. generalize (2 ^ (- e)). intros P Hm Hp.
  split.
  - apply Z.div_pos; lia.
  - apply Z.lt_succ_r. apply Z.div_lt_upper_bound; lia.
Qed.

Lemma random_id_range (r : spec_float) :
  is_random r = true ->
  exists n : Z, random_id r = NInt n /\ 0 <= n <= 10.
Proof.
  intros Hr. unfold random_id, mul.
  change (of_Z 10) with (S754_finite false 5629499534213120 (-49)).
  destruct r as [[] | s | | [] m e]; try discriminate Hr.
  - exists 0. split; [reflexivity | lia].
  - apply is_random_finite in Hr as [He Hm].
    cbn [SFmul xorb].
    assert (2 ^ 53 <= 2 ^ (- e)) as Hp by (apply Z.pow_le_mono_r; lia).
    assert (Zpos (m * 5629499534213120) < 10 * 2 ^ (- (e + -49))) as HM.
    { rewrite Pos2Z.inj_mul. replace (- (e + -49)) with (49 + - e) by lia.
      rewrite Z.pow_add_r by lia. change (2 ^ 49) with 562949953421312.
      revert Hm Hp. generalize (2 ^ 53) (2 ^ (- e)). intros. lia. }
    pose proof (binary_round_aux_below_ten (m * 5629499534213120) (e + -49)
                  ltac:(clear - He; lia) HM) as Hb.
    destruct (binary_round_aux prec emax false (Zpos (m * 5629499534213120))
                (e + -49) loc_Exact) as [[] | s | | [] m2 e2];
      try contradiction.
    + exists 0. split; [reflexivity | lia].
    + exists (round_half_up false m2 e2). cbn [Math_round andb].
      split; [reflexivity|].
      destruct Hb as [He2 Hm2].
      apply round_half_up_range; [lia | assumption].
Qed.

(** Both ends of the range are drawn: [+0] gives 0, and the greatest
    Number below 1 gives 10. *)
Example random_id_least : random_id (S754_zero false) = NInt 0.
Proof. reflexivity. Qed.

Example random_id_greatest :
  is_random (S754_finite false 9007199254740991 (-53)) = true /\
  random_id (S754_finite false 9007199254740991 (-53)) = NInt 10.
Proof. split; vm_compute; reflexivity. Qed.

End NumberFacts.

(** ** The dispatch loop on the stack of [index.js] *)

(** Decide the guards of the goal that have become closed terms. *)
Ltac decide_guards :=
  repeat match goal with
  | |- context [if ?b then _ else _] =>
      let v := eval vm_compute in b in
      match v with
      | true => change b with true
      | false => change b with false
      end; cbv iota
  end.

Ltac step_dispatch :=
  cbn [App.dispatch App.enter App.layer_scope App.layer_callback
       App.layer_stage App.external App.leave].

Ltac enter_router Hm Hp :=
  unfold Users.router, Users.routes; cbn [Users.run_routes];
  cbn [Users.route_method Users.route_pattern Users.route_handler];
  rewrite ?Hm, ?Hp; cbn [Users.match_path Users.undecodable].

Section AppFacts.
Import JSNumber Http Store Runs App.

Lemma visit_state s r : state_of (visit s r) = state_of r.
Proof. destruct r as [[? ?] ?]. reflexivity. Qed.

Lemma visit_response s r : response_of (visit s r) = response_of r.
Proof. destruct r as [[? ?] ?]. reflexivity. Qed.

Lemma visit_trace s r : trace_of (visit s r) = s :: trace_of r.
Proof. destruct r as [[? ?] ?]. reflexivity. Qed.

Lemma through_logging_state r : state_of (through_logging r) = state_of r.
Proof. unfold through_logging. rewrite !visit_state. reflexivity. Qed.

Lemma through_logging_response r :
  response_of (through_logging r) = response_of r.
Proof. unfold through_logging. rewrite !visit_response. reflexivity. Qed.

Lemma through_logging_trace r :
  trace_of (through_logging r) = parsing ++ trace_of r.
Proof. unfold through_logging. rewrite !visit_trace. reflexivity. Qed.

Lemma handle_passes ev req r st :
  passes ev req r ->
  handle ev req st =
  through_logging (dispatch ev routing None r (logged ev r st)).
Proof.
  intros (r1 & r2 & H1 & H2 & H3).
  unfold handle, stack, routing, through_logging, logged.
  step_dispatch. rewrite H1. step_dispatch. rewrite H2. step_dispatch.
  rewrite H3. reflexivity.
Qed.

(** A pending error passes over every middleware. *)
Lemma dispatch_skips ev l rest e req st f :
  layer_callback l = Handler f ->
  dispatch ev (l :: rest) (Some e) req st = dispatch ev rest (Some e) req st.
Proof.
  intros Hf. cbn [dispatch]. rewrite Hf.
  destruct (enter (layer_scope l) req); reflexivity.
Qed.

(** Whatever the stage an error arises at, [onError] answers it. *)
Lemma dispatch_error ev k e req st :
  (k <= 7)%nat ->
  dispatch ev (drop k stack) (Some e) req st =
  (print (Error None e) st, error_page e, [OnError]).
Proof.
  intros Hk. unfold stack.
  do 8 (destruct k as [| k];
        [cbn [drop]; repeat (erewrite dispatch_skips by reflexivity); reflexivity |]).
  lia.
Qed.

(** Once an error is pending, the bindings that are left pass it on. *)
Lemma run_routes_pending rs e ev q st :
  Users.run_routes rs (Some e) ev q st = (st, NextErr e).
Proof.
  induction rs as [| r rs IH]; cbn [Users.run_routes]; [reflexivity|].
  destruct (Users.match_path _ _); [|exact IH].
  destruct (Users.undecodable _ _ _); exact IH.
Qed.

Lemma router_post_root ev req st :
  req_method req = POST -> req_path req = [""] ->
  Users.router ev req st = Users.post_root ev req st.
Proof.
  intros Hm Hp. enter_router Hm Hp. decide_guards.
  unfold Users.post_root. destruct (req_body req); reflexivity.
Qed.

Lemma router_get_root ev req st :
  req_method req = GET -> req_path req = [""] ->
  Users.router ev req st = Users.get_root ev req st.
Proof.
  intros Hm Hp. enter_router Hm Hp. decide_guards.
  unfold Users.get_root. destruct (render ev _ _); reflexivity.
Qed.

Lemma nonempty_eqb (s : string) : s <> "" -> String.eqb s "" = false.
Proof. intros H. apply String.eqb_neq. exact H. Qed.

Lemma router_create_task ev req st uid :
  req_method req = POST -> req_path req = [uid; "tasks"] ->
  uid <> "" -> is_Some (decodeURIComponent ev uid) ->
  Users.router ev req st = (st, Done (Send 200 "Create task")).
Proof.
  intros Hm Hp Hid%nonempty_eqb [v Hdec]. enter_router Hm Hp.
  rewrite Hid, ?Hdec. decide_guards. rewrite ?Hdec. reflexivity.
Qed.

Lemma router_delete_user ev req st uid :
  req_method req = POST -> req_path req = [uid; "delete"] ->
  uid <> "" -> is_Some (decodeURIComponent ev uid) ->
  Users.router ev req st = (st, Done (Send 200 "Delete user")).
Proof.
  intros Hm Hp Hid%nonempty_eqb [v Hdec]. enter_router Hm Hp.
  rewrite Hid, ?Hdec. decide_guards. rewrite ?Hdec. reflexivity.
Qed.

Lemma router_delete_task ev req st uid tid :
  req_method req = POST -> req_path req = [uid; "tasks"; tid; "delete"] ->
  uid <> "" -> tid <> "" ->
  is_Some (decodeURIComponent ev uid) -> is_Some (decodeURIComponent ev tid) ->
  Users.router ev req st = (st, Done (Send 200 "Delete task")).
Proof.
  intros Hm Hp Hid%nonempty_eqb Htid%nonempty_eqb [v Hdec] [w Hdec'].
  enter_router Hm Hp.
  rewrite Hid, Htid, ?Hdec, ?Hdec'. decide_guards. rewrite ?Hdec, ?Hdec'.
  reflexivity.
Qed.

(** A parameter that does not decode makes the request fail before any
    handler is reached. *)
Lemma router_undecodable ev req st uid :
  req_path req = [uid; "tasks"] ->
  uid <> "" -> decodeURIComponent ev uid = None ->
  Users.router ev req st = (st, NextErr (Users.decode_error uid)).
Proof.
  intros Hp Hid%nonempty_eqb Hdec. enter_router Hp Hp.
  rewrite Hid, ?Hdec. decide_guards. rewrite ?Hdec. reflexivity.
Qed.

(** A request under [/users] skips the root route and enters the router
    with the prefix taken off its path. *)
Lemma routing_users ev r st rest :
  req_path r = "users" :: rest ->
  dispatch ev routing None r st =
  after_router
    (Users.router ev (with_path (unmount rest) r) st).
Proof.
  intros Hp. unfold routing, stack, after_router.
  cbn [drop dispatch enter layer_scope layer_callback layer_stage leave].
  rewrite Hp. cbn [Users.match_path].
  replace (Users.match_method GET (req_method r) &&
           match rest with [] => String.eqb "users" "" | _ :: _ => false end)
    with false by (destruct rest; symmetry; apply andb_false_r).
  decide_guards.
  destruct (Users.router ev _ st) as [st' []]; reflexivity.
Qed.

(** One step of the loop at a middleware registered with [app.use(fn)]. *)
Lemma dispatch_use ev l rest req st f :
  layer_scope l = Everywhere -> layer_callback l = Handler f ->
  dispatch ev (l :: rest) None req st =
  visit (layer_stage l)
    match f ev req st with
    | (st', Next req') => dispatch ev rest None req' st'
    | (st', NextErr e) | (st', Throw e) => dispatch ev rest (Some e) req st'
    | (st', Done resp) => (st', resp, [])
    end.
Proof.
  intros Hs Hf. cbn [dispatch]. rewrite Hs, Hf. cbn [enter leave].
  destruct (f ev req st) as [st' []]; reflexivity.
Qed.

(** How a request leaves the stages of Express: one of them has ended
    the exchange, one of them has failed, or they have handed it on. *)
Lemma handle_cases ev req st :
  (exists k resp, (1 <= k <= 3)%nat /\
     handle ev req st = (st, resp, take k parsing)) \/
  (exists k e, (1 <= k <= 3)%nat /\
     handle ev req st =
     (print (Error None e) st, error_page e, take k parsing ++ [OnError])) \/
  (exists r, passes ev req r /\
     handle ev req st =
     through_logging (dispatch ev routing None r (logged ev r st))).
Proof.
  pose proof (dispatch_error ev 1) as E1. pose proof (dispatch_error ev 2) as E2.
  pose proof (dispatch_error ev 3) as E3. unfold stack in E1, E2, E3.
  cbn [drop] in E1, E2, E3.
  destruct (express_static ev req) as [r1 | e | e | resp] eqn:H1.
  2-4: unfold handle, stack; erewrite dispatch_use by reflexivity;
       change (external express_static ev req st) with (st, express_static ev req); rewrite H1; cbn [layer_stage].
  2-3: right; left; exists 1%nat, e; split; [lia|]; rewrite E1 by lia; reflexivity.
  2: left; exists 1%nat, resp; split; [lia | reflexivity].
  destruct (express_json ev r1) as [r2 | e | e | resp] eqn:H2.
  2-4: unfold handle, stack; erewrite dispatch_use by reflexivity;
       change (external express_static ev req st) with (st, express_static ev req); rewrite H1; cbn [layer_stage];
       erewrite dispatch_use by reflexivity;
       change (external express_json ev r1 st) with (st, express_json ev r1); rewrite H2; cbn [layer_stage].
  2-3: right; left; exists 2%nat, e; split; [lia|]; rewrite E2 by lia; reflexivity.
  2: left; exists 2%nat, resp; split; [lia | reflexivity].
  destruct (express_urlencoded ev r2) as [r3 | e | e | resp] eqn:H3.
  2-4: unfold handle, stack; erewrite dispatch_use by reflexivity;
       change (external express_static ev req st) with (st, express_static ev req); rewrite H1; cbn [layer_stage];
       erewrite dispatch_use by reflexivity;
       change (external express_json ev r1 st) with (st, express_json ev r1); rewrite H2; cbn [layer_stage];
       erewrite dispatch_use by reflexivity;
       change (external express_urlencoded ev r2 st) with (st, express_urlencoded ev r2); rewrite H3; cbn [layer_stage].
  2-3: right; left; exists 3%nat, e; split; [lia|]; rewrite E3 by lia; reflexivity.
  2: left; exists 3%nat, resp; split; [lia | reflexivity].
  right; right. exists r3. split; [exists r1, r2; auto|].
  apply handle_passes. exists r1, r2; auto.
Qed.

(** Bindings whose handlers never call [next()]: the router calls
    [next()] itself, passes a parameter that does not decode, or ends as
    one of the handlers does. *)
Lemma run_routes_cases rs ev q st :
  (forall r st' q', r ∈ rs -> Users.route_handler r ev q st <> (st', Next q')) ->
  Users.run_routes rs None ev q st = (st, Next q) \/
  (exists val,
     Users.run_routes rs None ev q st = (st, NextErr (Users.decode_error val))) \/
  (exists r, r ∈ rs /\
     Users.run_routes rs None ev q st = Users.route_handler r ev q st).
Proof.
  induction rs as [| r rs IH]; intros Hterm; cbn [Users.run_routes].
  { left; reflexivity. }
  assert (Users.run_routes rs None ev q st = (st, Next q) \/
          (exists val,
             Users.run_routes rs None ev q st =
             (st, NextErr (Users.decode_error val))) \/
          (exists r0, r0 ∈ r :: rs /\
             Users.run_routes rs None ev q st = Users.route_handler r0 ev q st))
    as Hrest.
  { destruct IH as [H | [H | (r0 & Hin & H)]].
    - intros r0 st' q' Hin. apply Hterm. apply list_elem_of_further, Hin.
    - left; exact H.
    - right; left; exact H.
    - right; right. exists r0. split; [apply list_elem_of_further, Hin | exact H]. }
  destruct (Users.match_path _ _); [|exact Hrest].
  destruct (Users.undecodable _ _ _) as [val |].
  { right; left. exists val. apply run_routes_pending. }
  destruct (Users.match_method _ _); [|exact Hrest].
  right; right. exists r. split; [apply list_elem_of_here|].
  destruct (Users.route_handler r ev q st) as [st' [q' | e | e | resp]] eqn:Hr;
    [|reflexivity..].
  exfalso. exact (Hterm r st' q' (list_elem_of_here _ _) Hr).
Qed.

(** What the router can do with a request. *)
Lemma router_cases ev q st :
  Users.router ev q st = (st, Next q) \/
  (exists val, Users.router ev q st = (st, NextErr (Users.decode_error val))) \/
  Users.router ev q st = Users.get_root ev q st \/
  Users.router ev q st = Users.post_root ev q st \/
  exists text, Users.router ev q st = (st, Done (Send 200 text)).
Proof.
  unfold Users.router.
  destruct (run_routes_cases Users.routes ev q st) as [H | [H | (r & Hin & H)]].
  - intros r st' q' Hin. unfold Users.routes in Hin.
    repeat (apply elem_of_cons in Hin as [-> | Hin]);
      [.. | apply elem_of_nil in Hin; contradiction];
      cbn [Users.route_handler].
    + unfold Users.get_root. destruct (render ev _ _); discriminate.
    + unfold Users.post_root. destruct (req_body q); discriminate.
    + discriminate.
    + discriminate.
    + discriminate.
  - left; exact H.
  - right; left; exact H.
  - right; right. rewrite H. unfold Users.routes in Hin.
    repeat (apply elem_of_cons in Hin as [-> | Hin]);
      [.. | apply elem_of_nil in Hin; contradiction];
      cbn [Users.route_handler].
    + left; reflexivity.
    + right; left; reflexivity.
    + right; right. eexists; reflexivity.
    + right; right. eexists; reflexivity.
    + right; right. eexists; reflexivity.
Qed.

(** What the layers after the logging stages can do with a request. *)
Lemma routing_cases ev r st :
  dispatch ev routing None r st = (st, Redirect 302 "users", [RootRedirect]) \/
  dispatch ev routing None r st = (st, Final 404, []) \/
  exists inner,
    dispatch ev routing None r st = after_router (Users.router ev inner st).
Proof.
  unfold routing, stack, after_router.
  cbn [drop dispatch enter layer_scope layer_callback layer_stage leave].
  destruct (Users.match_method GET (req_method r) && Users.match_path [] (req_path r)).
  { left. reflexivity. }
  destruct (req_path r) as [| first rest]; [right; left; reflexivity|].
  destruct (Users.eqb_ci "users" first); [|right; left; reflexivity].
  right; right.
  exists (with_path (unmount rest) r).
  destruct (Users.router ev _ st) as [st' []]; reflexivity.
Qed.

End AppFacts.

(** ** The operations of the router, through the whole stack *)

Section Operations.
Import JSNumber Http Store Runs App.

Lemma passes_quiet x req : passes (quiet x) req req.
Proof. exists req, req. repeat split. Qed.

(** What a request under [/users] that the stages of Express have
    handed on comes to. *)
Lemma handle_users_route ev req r st rest :
  passes ev req r -> req_path r = "users" :: rest ->
  handle ev req st =
  through_logging
    (after_router
       (Users.router ev
          (with_path (unmount rest) r) (logged ev r st))).
Proof.
  intros Hpass Hp.
  rewrite (handle_passes _ _ _ _ Hpass), (routing_users _ _ _ _ Hp).
  reflexivity.
Qed.

Lemma unmount_segment (seg : string) (rest : list string) :
  seg <> "" -> unmount (seg :: rest) = seg :: rest.
Proof. intros H. destruct seg; [contradiction | reflexivity]. Qed.

(** C1 (as amended): the create-task operation, whether or not the user
    identifier of the URL names a stored user, answers 200 with the text
    "Create task", raises no error, and leaves the stored users and
    their tasks as they were. *)
Theorem create_task_placeholder ev req r st uid :
  passes ev req r ->
  req_method r = POST -> req_path r = ["users"; uid; "tasks"] ->
  uid <> "" -> is_Some (decodeURIComponent ev uid) ->
  response_of (handle ev req st) = Send 200 "Create task" /\
  ~ OnError ∈ trace_of (handle ev req st) /\
  users (state_of (handle ev req st)) = users st /\
  task_count (users (state_of (handle ev req st))) = task_count (users st).
Proof.
  intros Hpass Hm Hp Hid Hdec.
  rewrite (handle_users_route _ _ _ _ _ Hpass Hp), unmount_segment by exact Hid.
  rewrite (router_create_task _ _ _ uid) by (assumption || reflexivity).
  cbn. repeat split. rewrite !list_elem_of_In. cbn. intuition discriminate.
Qed.

(** [POST /users/1/tasks] on the initial store. *)
Lemma create_task_placeholder_witness :
  response_of (handle (quiet tenth) (form POST ["users"; "1"; "tasks"] []) initial)
  = Send 200 "Create task" /\
  ~ OnError ∈ trace_of (handle (quiet tenth) (form POST ["users"; "1"; "tasks"] []) initial) /\
  users (state_of (handle (quiet tenth) (form POST ["users"; "1"; "tasks"] []) initial))
  = users initial /\
  task_count (users (state_of (handle (quiet tenth) (form POST ["users"; "1"; "tasks"] []) initial)))
  = task_count (users initial).
Proof.
  apply (create_task_placeholder (quiet tenth) _
           (form POST ["users"; "1"; "tasks"] []) initial "1").
  - apply passes_quiet.
  - reflexivity.
  - reflexivity.
  - discriminate.
  - eexists. reflexivity.
Defined.

(** C1, as the specification states it, fails: on the initial store no
    user is named by [99], and [POST /users/99/tasks] is answered 200. *)
Lemma create_task_missing_user_counterexample :
  ~ (forall ev req r st uid,
       passes ev req r ->
       req_method r = POST -> req_path r = ["users"; uid; "tasks"] ->
       ~ resolves uid (users st) ->
       fails_with "NotFoundError" (handle ev req st) /\
       task_count (users (state_of (handle ev req st))) = task_count (users st)).
Proof.
  intros H.
  destruct (H (quiet tenth) (form POST ["users"; "99"; "tasks"] [])
              (form POST ["users"; "99"; "tasks"] []) initial "99")
    as [(e & _ & Hresp) _].
  - apply passes_quiet.
  - reflexivity.
  - reflexivity.
  - intros (u & Hu & Htext). cbn in Hu.
    apply list_elem_of_singleton in Hu. subst u. vm_compute in Htext. discriminate.
  - vm_compute in Hresp. discriminate.
Qed.

(** C7: the two delete operations answer 200 with their placeholder
    text and leave the stored users, with their tasks, as they were. *)
Theorem delete_placeholders ev req r st uid tid text :
  passes ev req r -> req_method r = POST -> uid <> "" -> tid <> "" ->
  is_Some (decodeURIComponent ev uid) -> is_Some (decodeURIComponent ev tid) ->
  (req_path r = ["users"; uid; "delete"] /\ text = "Delete user") \/
  (req_path r = ["users"; uid; "tasks"; tid; "delete"] /\ text = "Delete task") ->
  response_of (handle ev req st) = Send 200 text /\
  users (state_of (handle ev req st)) = users st.
Proof.
  intros Hpass Hm Hid Htid Hdec Hdec' [[Hp ->] | [Hp ->]];
    rewrite (handle_users_route _ _ _ _ _ Hpass Hp), unmount_segment
      by exact Hid.
  - rewrite (router_delete_user _ _ _ uid) by (assumption || reflexivity).
    split; reflexivity.
  - rewrite (router_delete_task _ _ _ uid tid) by (assumption || reflexivity).
    split; reflexivity.
Qed.

(** [POST /users/1/delete] and [POST /users/1/tasks/4/delete] on the
    initial store. *)
Lemma delete_placeholders_witness :
  (response_of
     (handle (quiet tenth) (form POST ["users"; "1"; "delete"] []) initial)
   = Send 200 "Delete user" /\
   users (state_of
     (handle (quiet tenth) (form POST ["users"; "1"; "delete"] []) initial))
   = users initial) /\
  (response_of
     (handle (quiet tenth)
        (form POST ["users"; "1"; "tasks"; "4"; "delete"] []) initial)
   = Send 200 "Delete task" /\
   users (state_of
     (handle (quiet tenth)
        (form POST ["users"; "1"; "tasks"; "4"; "delete"] []) initial))
   = users initial).
Proof.
  split.
  - apply (delete_placeholders (quiet tenth) _
             (form POST ["users"; "1"; "delete"] []) initial "1" "4");
      [apply passes_quiet | reflexivity | discriminate | discriminate
      | eexists; reflexivity | eexists; reflexivity |].
    left. split; reflexivity.
  - apply (delete_placeholders (quiet tenth) _
             (form POST ["users"; "1"; "tasks"; "4"; "delete"] []) initial "1" "4");
      [apply passes_quiet | reflexivity | discriminate | discriminate
      | eexists; reflexivity | eexists; reflexivity |].
    right. split; reflexivity.
Defined.

(** What [POST /users] does once its body has been decoded. *)
Lemma handle_create_user ev req r st body :
  passes ev req r ->
  req_method r = POST -> req_path r = ["users"] -> req_body r = Some body ->
  handle ev req st =
  through_logging
    (set_users
       (users st ++
        [ {| id := random_id (Math_random ev);
             name := default JUndefined (body !! "name"); tasks := [] |} ])
       (logged ev r st),
     Redirect 302 "users", [UsersRouter]).
Proof.
  intros Hpass Hm Hp Hb.
  rewrite (handle_users_route _ _ _ _ _ Hpass Hp).
  rewrite router_post_root by (assumption || reflexivity).
  unfold Users.post_root. cbn [with_path req_body]. rewrite Hb. reflexivity.
Qed.

(** C5: a POST to [/users] whose decoded body has a [name] appends a
    user of that name and is answered 302 with the location [users],
    which the path [/users] of the request resolves to [/users]. *)
Theorem create_user_redirect ev req r st body v :
  passes ev req r ->
  req_method r = POST -> req_path r = ["users"] ->
  req_body r = Some body -> body !! "name" = Some v ->
  users (state_of (handle ev req st)) =
    users st ++
    [ {| id := random_id (Math_random ev); name := v; tasks := [] |} ] /\
  response_of (handle ev req st) = Redirect 302 "users" /\
  status_of (response_of (handle ev req st)) = 302%nat /\
  pathname (resolve (req_path r) "users") = "/users".
Proof.
  intros Hpass Hm Hp Hb Hv.
  rewrite (handle_create_user _ _ _ _ _ Hpass Hm Hp Hb), Hv, Hp.
  repeat split.
Qed.

(** [POST /users] with [name=Bob] on the initial store, [Math.random()]
    returning 0.1. *)
Lemma create_user_redirect_witness :
  response_of
    (handle (quiet tenth) (form POST ["users"] [("name", JStr "Bob")]) initial)
  = Redirect 302 "users" /\
  users (state_of
    (handle (quiet tenth) (form POST ["users"] [("name", JStr "Bob")]) initial))
  = users initial ++ [ {| id := NInt 1; name := JStr "Bob"; tasks := [] |} ].
Proof.
  pose proof (create_user_redirect (quiet tenth)
                (form POST ["users"] [("name", JStr "Bob")])
                (form POST ["users"] [("name", JStr "Bob")]) initial
                (list_to_map [("name", JStr "Bob")]) (JStr "Bob")
                (passes_quiet _ _) eq_refl eq_refl eq_refl eq_refl)
    as (Hu & Hr & _).
  split; [exact Hr | exact Hu].
Defined.

(** The same handler also answers [POST /users/], and from that path
    the location [users] resolves to [/users/users]. *)
Lemma redirect_from_trailing_slash ev st body :
  response_of
    (dispatch ev routing None
       {| req_method := POST; req_path := ["users"; ""]; req_query := None;
          req_body := Some body |} st)
  = Redirect 302 "users" /\
  pathname (resolve ["users"; ""] "users") = "/users/users".
Proof.
  split; [|reflexivity].
  rewrite (routing_users _ _ _ [""]) by reflexivity.
  rewrite router_post_root by reflexivity. reflexivity.
Qed.

(** C6: after a user named "Alice" is created on the initial store, the
    list handed to the view has exactly one entry of that name, and the
    task list of that entry is empty. *)
Theorem create_alice_then_list ev1 req1 r1 body ev2 req2 r2 :
  passes ev1 req1 r1 ->
  req_method r1 = POST -> req_path r1 = ["users"] ->
  req_body r1 = Some body -> body !! "name" = Some (JStr "Alice") ->
  passes ev2 req2 r2 ->
  req_method r2 = GET -> req_path r2 = ["users"] ->
  let st1 := state_of (handle ev1 req1 initial) in
  response_of (handle ev2 req2 st1) =
    match render ev2 "users.pug" (users st1) with
    | inr html => Send 200 html
    | inl e => error_page e
    end /\
  exists u,
    List.filter (is_named "Alice") (users st1) = [u] /\
    name u = JStr "Alice" /\ tasks u = [].
Proof.
  intros Hpass1 Hm1 Hp1 Hb1 Hv1 Hpass2 Hm2 Hp2 st1.
  assert (users st1 =
          users initial ++
          [ {| id := random_id (Math_random ev1); name := JStr "Alice";
               tasks := [] |} ]) as Hu.
  { unfold st1.
    rewrite (handle_create_user _ _ _ _ _ Hpass1 Hm1 Hp1 Hb1), Hv1.
    reflexivity. }
  split.
  - rewrite (handle_users_route _ _ _ _ _ Hpass2 Hp2).
    rewrite router_get_root by (assumption || reflexivity).
    unfold Users.get_root, logged. cbn [print users].
    destruct (render ev2 "users.pug" (users st1)); reflexivity.
  - rewrite Hu. eexists. split; [reflexivity|]. split; reflexivity.
Qed.

(** [POST /users] with [name=Alice], then [GET /users]. *)
Lemma create_alice_then_list_witness :
  let st1 :=
    state_of (handle (quiet tenth)
                (form POST ["users"] [("name", JStr "Alice")]) initial) in
  response_of (handle (quiet tenth) (form GET ["users"] []) st1) =
    Send 200 "<html></html>" /\
  exists u,
    List.filter (is_named "Alice") (users st1) = [u] /\
    name u = JStr "Alice" /\ tasks u = [].
Proof.
  exact (create_alice_then_list
           (quiet tenth) (form POST ["users"] [("name", JStr "Alice")])
           (form POST ["users"] [("name", JStr "Alice")])
           (list_to_map [("name", JStr "Alice")])
           (quiet tenth) (form GET ["users"] []) (form GET ["users"] [])
           (passes_quiet _ _) eq_refl eq_refl eq_refl eq_refl
           (passes_quiet _ _) eq_refl eq_refl).
Defined.

(** C3: when the middleware at any place of the stack throws an error
    or passes one to [next], the response is the one [onError] writes:
    status 500 and the text "Something went wrong: " followed by the
    message of that error. *)
Theorem error_response ev k l f req inner st st' e :
  stack !! k = Some l -> layer_callback l = Handler f ->
  enter (layer_scope l) req = Some inner ->
  f ev inner st = (st', Throw e) \/ f ev inner st = (st', NextErr e) ->
  let res := dispatch ev (drop k stack) None req st in
  response_of res = Send 500 ("Something went wrong: " +:+ err_message e) /\
  status_of (response_of res) = 500%nat /\
  trace_of res = [layer_stage l; OnError] /\
  state_of res = print (Error None e) st'.
Proof.
  intros Hk Hf Hin Hcall res.
  assert (k < 7)%nat as Hlt.
  { apply lookup_lt_Some in Hk as Hlen. cbn in Hlen.
    destruct (decide (k = 7%nat)) as [-> |]; [|lia].
    cbn in Hk. injection Hk as <-. discriminate Hf. }
  assert (res =
          (print (Error None e) st', error_page e, [layer_stage l; OnError]))
    as ->; [|repeat split].
  unfold res. rewrite (drop_S _ _ _ Hk). cbn [dispatch].
  rewrite Hin, Hf.
  destruct Hcall as [-> | ->];
    rewrite (dispatch_error ev (S k)) by lia; reflexivity.
Qed.

(** The JSON body parser passes a [SyntaxError] to [next]. *)
Lemma error_response_witness :
  response_of
    (dispatch rejecting_json (drop 1 stack) None (form POST ["users"] []) initial)
  = Send 500 "Something went wrong: Unexpected token } in JSON".
Proof.
  exact (proj1 (error_response rejecting_json 1 _ (external express_json)
                  (form POST ["users"] []) (form POST ["users"] [])
                  initial initial malformed
                  eq_refl eq_refl eq_refl (or_intror eq_refl))).
Defined.

(** The stages a request can have gone through. *)
Lemma trace_cases ev req st :
  (exists k, (1 <= k <= 3)%nat /\
     (trace_of (handle ev req st) = take k parsing \/
      trace_of (handle ev req st) = take k parsing ++ [OnError])) \/
  (exists tl, trace_of (handle ev req st) = parsing ++ tl /\
     tl ∈ [[]; [RootRedirect]; [UsersRouter]; [UsersRouter; OnError]]).
Proof.
  destruct (handle_cases ev req st)
    as [(k & resp & Hk & ->) | [(k & e & Hk & ->) | (r & _ & ->)]].
  - left. exists k. split; [exact Hk | left; reflexivity].
  - left. exists k. split; [exact Hk | right; reflexivity].
  - right. rewrite through_logging_trace. eexists. split; [reflexivity|].
    destruct (routing_cases ev r (logged ev r st)) as [-> | [-> | (q & ->)]].
    + cbn. set_solver.
    + cbn. set_solver.
    + unfold after_router. rewrite visit_trace.
      destruct (router_cases ev q (logged ev r st))
        as [-> | [(val & ->) | [-> | [-> | (t & ->)]]]].
      * cbn. set_solver.
      * cbn. set_solver.
      * unfold Users.get_root. destruct (render ev _ _); cbn; set_solver.
      * unfold Users.post_root. destruct (req_body q); cbn; set_solver.
      * cbn. set_solver.
Qed.

(** C9 (as amended): the stages are registered in the order static
    assets, JSON body, URL-encoded body, request-info logging, timestamp
    logging, the root route, the router of [/users], the error handler;
    a request goes through them in that order: through the first five,
    unless one of the first three ends the exchange or fails, then
    through at most one of the root route and the router, and through
    the error handler only after a failure. *)
Theorem stage_order ev req st :
  map layer_stage stack = parsing ++ [RootRedirect; UsersRouter; OnError] /\
  sublist (trace_of (handle ev req st)) (map layer_stage stack) /\
  ((exists k, (1 <= k <= 3)%nat /\
      (trace_of (handle ev req st) = take k parsing \/
       trace_of (handle ev req st) = take k parsing ++ [OnError])) \/
   (exists tl, trace_of (handle ev req st) = parsing ++ tl /\
      tl ∈ [[]; [RootRedirect]; [UsersRouter]; [UsersRouter; OnError]])).
Proof.
  split; [reflexivity|]. split; [|apply trace_cases].
  destruct (trace_cases ev req st) as [(k & Hk & [-> | ->]) | (tl & -> & Htl)].
  - assert (k = 1 \/ k = 2 \/ k = 3)%nat as [-> | [-> | ->]] by lia;
      cbn; repeat (apply sublist_skip || apply sublist_nil_l || apply sublist_cons).
  - assert (k = 1 \/ k = 2 \/ k = 3)%nat as [-> | [-> | ->]] by lia;
      cbn; repeat first [apply sublist_nil_l
                        | apply sublist_skip
                        | apply sublist_cons].
  - repeat (apply elem_of_cons in Htl as [-> | Htl]);
      [.. | apply elem_of_nil in Htl; contradiction];
      cbn; repeat first [apply sublist_nil_l
                        | apply sublist_skip
                        | apply sublist_cons].
Qed.

(** C9, as the specification states it, fails: [GET /] goes from the
    timestamp logging to the root route, a stage the list leaves out. *)
Lemma stage_order_counterexample :
  ~ (forall ev req st,
       sublist (trace_of (handle ev req st)) listed_stages).
Proof.
  intros H. specialize (H (quiet tenth) (form GET [""] []) initial).
  apply sublist_subseteq in H.
  assert (RootRedirect ∈ listed_stages) as Hin.
  { apply H. vm_compute. repeat constructor. }
  unfold listed_stages, parsing in Hin. cbn [app] in Hin.
  repeat (apply elem_of_cons in Hin as [Hin | Hin]; [discriminate Hin|]).
  apply elem_of_nil in Hin. exact Hin.
Qed.

(** A request leaves the stored users as they were, or appends one user
    whose identifier is drawn by [Math.random]. *)
Lemma handle_users ev req st :
  users (state_of (handle ev req st)) = users st \/
  exists v,
    users (state_of (handle ev req st)) =
    users st ++ [ {| id := random_id (Math_random ev); name := v; tasks := [] |} ].
Proof.
  destruct (handle_cases ev req st)
    as [(k & resp & Hk & ->) | [(k & e & Hk & ->) | (r & _ & ->)]].
  - left; reflexivity.
  - left; reflexivity.
  - rewrite through_logging_state.
    destruct (routing_cases ev r (logged ev r st)) as [-> | [-> | (q & ->)]].
    + left; reflexivity.
    + left; reflexivity.
    + unfold after_router. rewrite visit_state.
      destruct (router_cases ev q (logged ev r st))
        as [-> | [(val & ->) | [-> | [-> | (t & ->)]]]].
      * left; reflexivity.
      * left; reflexivity.
      * unfold Users.get_root. destruct (render ev _ _); left; reflexivity.
      * unfold Users.post_root. destruct (req_body q).
        -- right. eexists. reflexivity.
        -- left; reflexivity.
      * left; reflexivity.
Qed.

Lemma reachable_small_ids st :
  reachable st -> Forall (fun u => small_id (id u)) (users st).
Proof.
  induction 1 as [| ev req st Hr _ IH].
  - repeat constructor. exists 1%Z. split; [reflexivity | lia].
  - destruct (handle_users ev req st) as [-> | (v & ->)]; [exact IH|].
    apply Forall_app. split; [exact IH|].
    repeat constructor. cbn [id]. apply random_id_range. exact Hr.
Qed.

(** C2 (as amended): in every reachable state each user identifier is
    an integer from 0 to 10; identifiers are not kept distinct: a
    create-user operation on a store of distinct identifiers leaves them
    distinct exactly when the identifier it draws is not in the store. *)
Theorem user_ids_small_and_fresh st ev req r body :
  reachable st ->
  passes ev req r ->
  req_method r = POST -> req_path r = ["users"] -> req_body r = Some body ->
  NoDup (map id (users st)) ->
  Forall (fun u => small_id (id u)) (users st) /\
  (NoDup (map id (users (state_of (handle ev req st)))) <->
   random_id (Math_random ev) ∉ map id (users st)).
Proof.
  intros Hreach Hpass Hm Hp Hb Hnd. split; [apply reachable_small_ids, Hreach|].
  rewrite (handle_create_user _ _ _ _ _ Hpass Hm Hp Hb).
  rewrite through_logging_state. cbn [state_of fst set_users users].
  rewrite map_app. cbn [map id]. rewrite NoDup_app. split.
  - intros (_ & Hfresh & _) Hin. apply (Hfresh _ Hin). apply list_elem_of_here.
  - intros Hfresh. split; [exact Hnd|]. split; [|apply NoDup_singleton].
    intros x Hx Hx'. apply list_elem_of_singleton in Hx'. subst x. auto.
Qed.

(** On the initial store a draw of [+0] gives the fresh identifier 0. *)
Lemma user_ids_small_and_fresh_witness :
  Forall (fun u => small_id (id u)) (users initial) /\
  (NoDup (map id (users (state_of
     (handle (quiet (S754_zero false))
        (form POST ["users"] [("name", JStr "Bob")]) initial)))) <->
   random_id (S754_zero false) ∉ map id (users initial)).
Proof.
  apply (user_ids_small_and_fresh initial (quiet (S754_zero false))
           (form POST ["users"] [("name", JStr "Bob")])
           (form POST ["users"] [("name", JStr "Bob")])
           (list_to_map [("name", JStr "Bob")])
           reachable_initial (passes_quiet _ _) eq_refl eq_refl eq_refl).
  cbn. apply NoDup_singleton.
Defined.

(** C2, as the specification states it, fails: when [Math.random()]
    returns 0.1 the new user gets the identifier 1 of the user the store
    starts with. *)
Lemma user_ids_unique_counterexample :
  ~ (forall st, reachable st -> NoDup (map id (users st))).
Proof.
  intros H.
  specialize (H _ (reachable_handle (quiet tenth)
                     (form POST ["users"] [("name", JStr "Bob")]) initial
                     eq_refl reachable_initial)).
  vm_compute in H. apply NoDup_cons in H as [Hin _].
  apply Hin. apply list_elem_of_here.
Qed.

Lemma create_users_ids ops st :
  Forall (fun op => is_Some (req_body (snd op))) ops ->
  map id (users (create_users ops st)) = map id (users st) ++ drawn ops.
Proof.
  revert st. induction ops as [| [ev req] ops IH]; intros st Hops.
  - cbn. rewrite app_nil_r. reflexivity.
  - apply Forall_cons in Hops as [[body Hb] Hops].
    unfold create_users in *. cbn [foldl fst snd drawn map] in *.
    rewrite IH by exact Hops.
    unfold Users.post_root. rewrite Hb. cbn [fst set_users users].
    rewrite map_app, <- app_assoc. reflexivity.
Qed.

Lemma small_ids_bounded (ids : list number) :
  NoDup ids -> Forall small_id ids -> length ids <= 11.
Proof.
  intros Hnd Hsmall.
  replace 11 with (length (NInt <$> seqZ 0 11))
    by (rewrite length_fmap, length_seqZ; reflexivity).
  apply submseteq_length, NoDup_submseteq; [exact Hnd|].
  intros i Hi. rewrite Forall_forall in Hsmall.
  destruct (Hsmall i Hi) as (n & -> & Hn).
  apply list_elem_of_fmap. exists n. split; [reflexivity|].
  apply elem_of_seqZ. lia.
Qed.

(** C10: a create-user operation gives the new user the identifier
    [Math.round(Math.random() * 10)], an integer from 0 to 10 that
    depends on the draw alone and not on the store; so the identifiers a
    sequence of such operations assigns take at most 11 values. *)
Theorem create_user_id_range ops st :
  Forall (fun op => is_random (Math_random (fst op)) = true /\
                    is_Some (req_body (snd op))) ops ->
  map id (users (create_users ops st)) = map id (users st) ++ drawn ops /\
  Forall small_id (drawn ops) /\
  forall ids, NoDup ids -> ids ⊆ drawn ops -> length ids <= 11.
Proof.
  intros Hops.
  assert (Forall small_id (drawn ops)) as Hsmall.
  { unfold drawn. apply Forall_map. eapply Forall_impl; [exact Hops|].
    intros op [Hr _]. apply random_id_range. exact Hr. }
  split; [|split; [exact Hsmall|]].
  - apply create_users_ids. eapply Forall_impl; [exact Hops|].
    intros op [_ Hb]. exact Hb.
  - intros ids Hnd Hsub. apply small_ids_bounded; [exact Hnd|].
    rewrite Forall_forall in Hsmall |- *. intros i Hi. apply Hsmall, Hsub, Hi.
Qed.

(** Two create-user operations, drawing 0.1 and [+0]. *)
Lemma create_user_id_range_witness :
  map id (users (create_users
     [(quiet tenth, form POST [""] [("name", JStr "Bob")]);
      (quiet (S754_zero false), form POST [""] [])] initial))
  = [NInt 1; NInt 1; NInt 0].
Proof.
  refine (proj1 (create_user_id_range
     [(quiet tenth, form POST [""] [("name", JStr "Bob")]);
      (quiet (S754_zero false), form POST [""] [])] initial _)).
  repeat constructor; eexists; reflexivity.
Defined.
End Operations.

(** ** Startup: [dbInit] and the schema *)

Section ModelFacts.
Import Http Store Runs Models.

Lemma sync_schema_lookup db t :
  sync_schema db !! t =
  match db !! t with
  | Some tb => Some tb
  | None => if decide (t = "users") then Some (table_of User) else None
  end.
Proof.
  unfold sync_schema, models. cbn [foldl].
  unfold create_table_if_not_exists.
  change (tableName User) with "users".
  destruct (db !! "users") as [tb |] eqn:Hu.
  - destruct (db !! t) eqn:Ht; [reflexivity|].
    destruct (decide (t = "users")) as [-> |]; [congruence | reflexivity].
  - destruct (decide (t = "users")) as [-> | Hne].
    + rewrite lookup_insert_eq, Hu. reflexivity.
    + rewrite lookup_insert_ne by congruence. destruct (db !! t); reflexivity.
Qed.

Lemma sync_schema_idempotent db : sync_schema (sync_schema db) = sync_schema db.
Proof.
  apply map_eq. intros t. rewrite !sync_schema_lookup.
  destruct (db !! t); [reflexivity|].
  destruct (decide (t = "users")); reflexivity.
Qed.

(** C4 (as amended): when it succeeds, the ensure-schema step of
    startup establishes the table of the one model the code defines,
    User, if it is absent, with no foreign key; it leaves every other
    table as it is, and creates none for tasks; running it again changes
    nothing. *)
Theorem ensure_schema db p :
  sync_error db = None ->
  let p' := fst (dbInit db p) in
  (exists tb, schema p' !! "users" = Some tb /\
     (schema p !! "users" = None -> tb = table_of User /\ foreign_keys tb = [])) /\
  (forall t tb, schema p !! t = Some tb -> schema p' !! t = Some tb) /\
  (forall t, t <> "users" -> schema p' !! t = schema p !! t) /\
  schema (fst (dbInit db p')) = schema p'.
Proof.
  intros Hs p'. unfold p', dbInit. rewrite Hs. cbn [fst schema].
  repeat split.
  - rewrite sync_schema_lookup. destruct (schema p !! "users") as [tb |].
    + exists tb. split; [reflexivity | discriminate].
    + eexists. split; [reflexivity|]. intros _. split; reflexivity.
  - intros t tb Ht. rewrite sync_schema_lookup, Ht. reflexivity.
  - intros t Hne. rewrite sync_schema_lookup.
    destruct (schema p !! t); [reflexivity|].
    destruct (decide (t = "users")); [contradiction | reflexivity].
  - apply sync_schema_idempotent.
Qed.

(** A successful startup on an empty database. *)
Lemma ensure_schema_witness :
  exists tb, schema (fst (dbInit healthy fresh)) !! "users" = Some tb /\
    (schema fresh !! "users" = None -> tb = table_of User /\ foreign_keys tb = []).
Proof.
  exact (proj1 (ensure_schema healthy fresh eq_refl)).
Defined.

(** C4, as the specification states it, fails: on an empty database a
    successful startup creates no table for tasks. *)
Lemma ensure_schema_counterexample :
  ~ (forall db p, sync_error db = None ->
       has_users_and_tasks (schema (fst (dbInit db p)))).
Proof.
  intros H. destruct (H healthy fresh eq_refl) as (u & t & _ & Ht & _).
  cbn in Ht. rewrite sync_schema_lookup in Ht.
  rewrite lookup_empty in Ht. destruct (decide ("tasks" = "users")); discriminate.
Qed.

(** C8 fails on the code: a rejection of [sequelize.sync()] is outside
    the [try] of [dbInit], so [dbInit] prints nothing for it and its
    promise is rejected; [index.js] leaves the rejection unhandled, and
    where Node treats that as an uncaught exception the process ends. *)
Theorem dbInit_sync_rejected e p :
  let db := {| authenticate_error := None; sync_error := Some e |} in
  dbInit db p =
    ({| schema := schema p;
        output := output p ++ [Log "Connection has been established successfully."] |},
     Rejected e) /\
  (forall mode, unhandled_rejection (main mode db p) = Some e) /\
  exit_code (main ThrowUncaught db p) = Some 1 /\
  exit_code (main WarnOnly db p) = None.
Proof. repeat split. Qed.

(** A rejection of [sequelize.authenticate()] is caught: it is printed,
    [dbInit] goes on to [sync], and the process goes on. *)
Lemma dbInit_authenticate_rejected e p mode :
  let db := {| authenticate_error := Some e; sync_error := None |} in
  dbInit db p =
    ({| schema := sync_schema (schema p);
        output := output p ++ [Error (Some "Unable to dbInit to the database:") e] |},
     Resolved) /\
  unhandled_rejection (main mode db p) = None /\
  exit_code (main mode db p) = None.
Proof. repeat split. Qed.
End ModelFacts.


(** ** More about the stack: logging, the routes, the store *)

Section MoreOperations.
Import JSNumber Http Store Runs App Cases.

(** As [run_routes_cases], with what made the router choose the
    binding. *)
Lemma run_routes_chosen rs ev q st :
  (forall r st' q', r ∈ rs -> Users.route_handler r ev q st <> (st', Next q')) ->
  Users.run_routes rs None ev q st = (st, Next q) \/
  (exists val,
     Users.run_routes rs None ev q st = (st, NextErr (Users.decode_error val))) \/
  (exists r, r ∈ rs /\
     Users.match_path (Users.route_pattern r) (req_path q) = true /\
     Users.match_method (Users.route_method r) (req_method q) = true /\
     Users.run_routes rs None ev q st = Users.route_handler r ev q st).
Proof.
  induction rs as [| r rs IH]; intros Hterm; cbn [Users.run_routes].
  { left; reflexivity. }
  assert (Users.run_routes rs None ev q st = (st, Next q) \/
          (exists val,
             Users.run_routes rs None ev q st =
             (st, NextErr (Users.decode_error val))) \/
          (exists r0, r0 ∈ r :: rs /\
             Users.match_path (Users.route_pattern r0) (req_path q) = true /\
             Users.match_method (Users.route_method r0) (req_method q) = true /\
             Users.run_routes rs None ev q st = Users.route_handler r0 ev q st))
    as Hrest.
  { destruct IH as [H | [H | (r0 & Hin & Hp & Hm & H)]].
    - intros r0 st' q' Hin. apply Hterm. apply list_elem_of_further, Hin.
    - left; exact H.
    - right; left; exact H.
    - right; right. exists r0.
      split; [apply list_elem_of_further, Hin | auto]. }
  destruct (Users.match_path _ _) eqn:Hp; [|exact Hrest].
  destruct (Users.undecodable _ _ _) as [val |].
  { right; left. exists val. apply run_routes_pending. }
  destruct (Users.match_method _ _) eqn:Hm; [|exact Hrest].
  right; right. exists r. split; [apply list_elem_of_here|].
  split; [exact Hp|]. split; [exact Hm|].
  destruct (Users.route_handler r ev q st) as [st' [q' | e | e | resp]] eqn:Hr;
    [|reflexivity..].
  exfalso. exact (Hterm r st' q' (list_elem_of_here _ _) Hr).
Qed.

Lemma match_method_post m : Users.match_method POST m = true -> m = POST.
Proof.
  unfold Users.match_method. intros H.
  apply orb_prop in H as [H | H].
  - apply bool_decide_eq_true in H. symmetry. exact H.
  - apply andb_prop in H as [H _]. apply bool_decide_eq_true in H. discriminate.
Qed.

(** The router writes to the store only for a POST to its root that
    has a body; otherwise it leaves the state as it is. *)
Lemma router_outcomes ev q st :
  fst (Users.router ev q st) = st \/
  exists body : gmap string jsval,
    req_method q = POST /\ Users.match_path [] (req_path q) = true /\
    req_body q = Some body /\
    Users.router ev q st =
      (set_users
         (users st ++
          [ {| id := random_id (Math_random ev);
               name := default JUndefined (body !! "name"); tasks := [] |} ])
         st,
       Done (Redirect 302 "users")).
Proof.
  unfold Users.router.
  destruct (run_routes_chosen Users.routes ev q st)
    as [H | [(val & H) | (r & Hin & Hp & Hm & H)]].
  - intros r st' q' Hin. unfold Users.routes in Hin.
    repeat (apply elem_of_cons in Hin as [-> | Hin]);
      [.. | apply elem_of_nil in Hin; contradiction];
      cbn [Users.route_handler].
    + unfold Users.get_root. destruct (render ev _ _); discriminate.
    + unfold Users.post_root. destruct (req_body q); discriminate.
    + discriminate.
    + discriminate.
    + discriminate.
  - left. rewrite H. reflexivity.
  - left. rewrite H. reflexivity.
  - rewrite H. unfold Users.routes in Hin.
    repeat (apply elem_of_cons in Hin as [-> | Hin]);
      [.. | apply elem_of_nil in Hin; contradiction];
      cbn [Users.route_handler Users.route_pattern Users.route_method] in *.
    + left. unfold Users.get_root. destruct (render ev _ _); reflexivity.
    + unfold Users.post_root. destruct (req_body q) as [body |] eqn:Hb.
      * right. exists body. split; [apply match_method_post, Hm|].
        split; [exact Hp|]. split; reflexivity.
      * left; reflexivity.
    + left; reflexivity.
    + left; reflexivity.
    + left; reflexivity.
Qed.

(** As [routing_cases], with the path that leads into the router. *)
Lemma routing_outcomes ev r st :
  dispatch ev routing None r st = (st, Redirect 302 "users", [RootRedirect]) \/
  dispatch ev routing None r st = (st, Final 404, []) \/
  exists first rest,
    req_path r = first :: rest /\ Users.eqb_ci "users" first = true /\
    dispatch ev routing None r st =
    after_router (Users.router ev (with_path (unmount rest) r) st).
Proof.
  unfold routing, stack, after_router.
  cbn [drop dispatch enter layer_scope layer_callback layer_stage leave].
  destruct (Users.match_method GET (req_method r) && Users.match_path [] (req_path r)).
  { left. reflexivity. }
  destruct (req_path r) as [| first rest]; [right; left; reflexivity|].
  destruct (Users.eqb_ci "users" first) eqn:Hci; [|right; left; reflexivity].
  right; right. exists first, rest. split; [reflexivity|]. split; [exact Hci|].
  destruct (Users.router ev _ st) as [st' []]; reflexivity.
Qed.

Lemma logged_users ev r st : users (logged ev r st) = users st.
Proof. reflexivity. Qed.

(** What a request that the stages of Express have handed on leaves
    behind, after the two log lines: a route has answered it, it has
    failed, or it has created a user. *)
Lemma passed_outcomes ev req r st :
  passes ev req r ->
  let res := handle ev req st in
  (state_of res = logged ev r st /\ ~ OnError ∈ trace_of res) \/
  (exists e, state_of res = print (Error None e) (logged ev r st) /\
             response_of res = error_page e) \/
  (exists body : gmap string jsval,
     req_method r = POST /\ users_root r /\ req_body r = Some body /\
     state_of res =
       set_users
         (users st ++
          [ {| id := random_id (Math_random ev);
               name := default JUndefined (body !! "name"); tasks := [] |} ])
         (logged ev r st) /\
     response_of res = Redirect 302 "users").
Proof.
  intros Hpass res. unfold res. rewrite (handle_passes _ _ _ _ Hpass).
  rewrite through_logging_state, through_logging_response, through_logging_trace.
  assert (forall t, ~ OnError ∈ t -> ~ OnError ∈ parsing ++ t) as Hclean.
  { intros t Ht Hin. apply elem_of_app in Hin as [Hin | Hin]; [|exact (Ht Hin)].
    unfold parsing in Hin.
    repeat (apply elem_of_cons in Hin as [Hin | Hin]; [discriminate Hin|]).
    apply elem_of_nil in Hin. exact Hin. }
  destruct (routing_outcomes ev r (logged ev r st))
    as [-> | [-> | (first & rest & Hp & Hci & ->)]].
  - left. split; [reflexivity|]. apply Hclean. cbn.
    intros Hin. apply list_elem_of_singleton in Hin. discriminate.
  - left. split; [reflexivity|]. apply Hclean. cbn. apply not_elem_of_nil.
  - unfold after_router. rewrite visit_state, visit_response, visit_trace.
    destruct (router_outcomes ev (with_path (unmount rest) r) (logged ev r st))
      as [Hst | (body & Hm & Hroot & Hb & ->)].
    + destruct (Users.router ev _ _) as [st' o]. cbn [fst] in Hst. subst st'.
      destruct o as [q | e | e | resp].
      * left. split; [reflexivity|]. apply Hclean. cbn.
        intros Hin. apply list_elem_of_singleton in Hin. discriminate.
      * right; left. exists e. split; reflexivity.
      * right; left. exists e. split; reflexivity.
      * left. split; [reflexivity|]. apply Hclean. cbn.
        intros Hin. apply list_elem_of_singleton in Hin. discriminate.
    + right; right. exists body. split; [exact Hm|].
      split; [exists first, rest; auto|]. split; [exact Hb|]. split; reflexivity.
Qed.

(** X1: a request that the stages of Express hand on is logged before
    any route sees it: its method and original URL, then the time; the
    only line that can follow is the error [onError] prints. *)
Theorem request_logged ev req r st :
  passes ev req r ->
  exists tl,
    console (state_of (handle ev req st)) =
      console st ++
      [ Log (method_name (req_method r) +:+ " " +:+ originalUrl r);
        Log ("Time: " +:+ toLocaleTimeString ev) ] ++ tl /\
    (tl = [] \/ exists e, tl = [Error None e] /\
                          response_of (handle ev req st) = error_page e).
Proof.
  intros Hpass.
  destruct (passed_outcomes ev req r st Hpass)
    as [[-> _] | [(e & -> & Hresp) | (body & _ & _ & _ & -> & _)]].
  - exists []. split; [|left; reflexivity].
    unfold logged. cbn [print console]. rewrite <- !app_assoc. reflexivity.
  - exists [Error None e]. split; [|right; exists e; split; [reflexivity | exact Hresp]].
    unfold logged. cbn [print console]. rewrite <- !app_assoc. reflexivity.
  - exists []. split; [|left; reflexivity].
    unfold logged. cbn [set_users print console]. rewrite <- !app_assoc. reflexivity.
Qed.

(** [GET /users], everything outside behaving. *)
Lemma request_logged_witness :
  exists tl,
    console (state_of (handle (quiet tenth) (form GET ["users"] []) initial)) =
      console initial ++
      [ Log (method_name GET +:+ " " +:+ originalUrl (form GET ["users"] []));
        Log ("Time: " +:+ toLocaleTimeString (quiet tenth)) ] ++ tl /\
    (tl = [] \/ exists e, tl = [Error None e] /\
       response_of (handle (quiet tenth) (form GET ["users"] []) initial)
       = error_page e).
Proof.
  exact (request_logged (quiet tenth) (form GET ["users"] [])
           (form GET ["users"] []) initial (passes_quiet _ _)).
Defined.

(** X2: a request an Express stage ends, by answering it (a static
    file) or by failing (a body that does not parse), is not logged by
    [logRequestInfo] and [logRequestTime], which are registered after
    those stages: the console gets nothing, or only the error [onError]
    prints, and the store is untouched. *)
Theorem unlogged_when_stopped ev req st :
  (~ exists r, passes ev req r) ->
  users (state_of (handle ev req st)) = users st /\
  (console (state_of (handle ev req st)) = console st \/
   exists e,
     console (state_of (handle ev req st)) = console st ++ [Error None e] /\
     response_of (handle ev req st) = error_page e).
Proof.
  intros Hno.
  destruct (handle_cases ev req st)
    as [(k & resp & _ & ->) | [(k & e & _ & ->) | (r & Hpass & _)]].
  - split; [reflexivity | left; reflexivity].
  - split; [reflexivity|]. right. exists e. split; reflexivity.
  - exfalso. apply Hno. exists r. exact Hpass.
Qed.

Lemma not_passes_serving req : ~ exists r, passes serving req r.
Proof. intros (r & r1 & r2 & H & _). discriminate H. Qed.

(** A request for a static file. *)
Lemma unlogged_when_stopped_witness :
  users (state_of (handle serving (form GET ["style.css"] []) initial))
  = users initial /\
  (console (state_of (handle serving (form GET ["style.css"] []) initial))
   = console initial \/
   exists e,
     console (state_of (handle serving (form GET ["style.css"] []) initial))
     = console initial ++ [Error None e] /\
     response_of (handle serving (form GET ["style.css"] []) initial)
     = error_page e).
Proof.
  exact (unlogged_when_stopped serving (form GET ["style.css"] []) initial
           (not_passes_serving _)).
Defined.

(** X3: [GET /] and [HEAD /] are answered 302 with the location
    [users], which resolves to [/users], by the root route and not by
    the router; the store is not touched. The root route answers no
    POST: [POST /] ends at the final handler with 404. *)
Theorem root_redirects ev req r st :
  passes ev req r -> req_path r = [""] ->
  (req_method r = GET \/ req_method r = HEAD ->
     response_of (handle ev req st) = Redirect 302 "users" /\
     trace_of (handle ev req st) = parsing ++ [RootRedirect] /\
     pathname (resolve (req_path r) "users") = "/users" /\
     users (state_of (handle ev req st)) = users st) /\
  (req_method r = POST ->
     response_of (handle ev req st) = Final 404 /\
     trace_of (handle ev req st) = parsing /\
     users (state_of (handle ev req st)) = users st).
Proof.
  intros Hpass Hp. rewrite (handle_passes _ _ _ _ Hpass).
  rewrite through_logging_state, through_logging_response, through_logging_trace.
  unfold routing, stack.
  cbn [drop dispatch enter layer_scope layer_callback layer_stage leave].
  rewrite Hp. split.
  - intros [Hm | Hm]; rewrite Hm; decide_guards; repeat split.
  - intros Hm; rewrite Hm; decide_guards. repeat split.
Qed.

Lemma root_redirects_witness :
  response_of (handle (quiet tenth) (form HEAD [""] []) initial)
  = Redirect 302 "users" /\
  response_of (handle (quiet tenth) (form POST [""] []) initial) = Final 404.
Proof.
  split.
  - exact (proj1 (proj1 (root_redirects (quiet tenth) (form HEAD [""] [])
                           (form HEAD [""] []) initial (passes_quiet _ _) eq_refl)
                    (or_intror eq_refl))).
  - exact (proj1 (proj2 (root_redirects (quiet tenth) (form POST [""] [])
                           (form POST [""] []) initial (passes_quiet _ _) eq_refl)
                    eq_refl)).
Defined.

(** X4: [index.js] registers no catch-all: a request whose path is not
    [/] and does not begin with [/users] (in any letter case) is logged
    and ends at the final handler with 404, whatever its method, without
    reaching the router or [onError]. *)
Theorem unknown_path_not_found ev req r st first rest :
  passes ev req r -> req_path r = first :: rest ->
  Users.eqb_ci "users" first = false -> req_path r <> [""] ->
  response_of (handle ev req st) = Final 404 /\
  trace_of (handle ev req st) = parsing /\
  state_of (handle ev req st) = logged ev r st.
Proof.
  intros Hpass Hp Hci Hroot. rewrite (handle_passes _ _ _ _ Hpass).
  rewrite through_logging_state, through_logging_response, through_logging_trace.
  unfold routing, stack.
  cbn [drop dispatch enter layer_scope layer_callback layer_stage leave].
  rewrite Hp in *. rewrite Hci.
  assert (Users.match_path [] (first :: rest) = false) as ->.
  { cbn [Users.match_path]. destruct rest; [|reflexivity].
    apply String.eqb_neq. intros ->. apply Hroot. reflexivity. }
  rewrite andb_false_r. rewrite app_nil_r. repeat split.
Qed.

Lemma unknown_path_not_found_witness :
  response_of (handle (quiet tenth) (form GET ["tasks"; "7"] []) initial)
  = Final 404 /\
  trace_of (handle (quiet tenth) (form GET ["tasks"; "7"] []) initial) = parsing /\
  state_of (handle (quiet tenth) (form GET ["tasks"; "7"] []) initial)
  = logged (quiet tenth) (form GET ["tasks"; "7"] []) initial.
Proof.
  apply (unknown_path_not_found (quiet tenth) _ (form GET ["tasks"; "7"] [])
           initial "tasks" ["7"] (passes_quiet _ _) eq_refl eq_refl).
  discriminate.
Defined.

(** X5: [GET /users], with or without a trailing slash, hands the view
    [users.pug] the stored users as they are, in the order they were
    added, and answers 200 with what the view renders; when the view
    fails, [onError] answers 500 with the message of the failure. Either
    way the store is as it was. *)
Theorem list_users ev req r st :
  passes ev req r -> req_method r = GET ->
  req_path r = ["users"] \/ req_path r = ["users"; ""] ->
  response_of (handle ev req st) =
    match render ev "users.pug" (users st) with
    | inr html => Send 200 html
    | inl e => error_page e
    end /\
  users (state_of (handle ev req st)) = users st.
Proof.
  intros Hpass Hm [Hp | Hp];
    rewrite (handle_users_route _ _ _ _ _ Hpass Hp);
    rewrite router_get_root by (assumption || reflexivity);
    unfold Users.get_root; rewrite logged_users;
    destruct (render ev "users.pug" (users st)); split; reflexivity.
Qed.

Lemma list_users_witness :
  response_of (handle unrendered (form GET ["users"; ""] []) initial)
  = Send 500 "Something went wrong: Failed to lookup view" /\
  users (state_of (handle unrendered (form GET ["users"; ""] []) initial))
  = users initial.
Proof.
  refine (list_users unrendered (form GET ["users"; ""] [])
            (form GET ["users"; ""] []) initial _ eq_refl (or_intror eq_refl)).
  exists (form GET ["users"; ""] []), (form GET ["users"; ""] []).
  repeat split.
Defined.

(** X6: a [POST /users] that reaches the router with [req.body] still
    undefined makes the handler throw while it destructures the body:
    [onError] answers 500 with the message of a [TypeError], and no user
    is added. *)
Theorem create_user_without_body ev req r st :
  passes ev req r -> req_method r = POST -> req_path r = ["users"] ->
  req_body r = None ->
  (exists e, err_name e = "TypeError" /\
     response_of (handle ev req st) = error_page e /\
     console (state_of (handle ev req st)) =
       console (logged ev r st) ++ [Error None e]) /\
  trace_of (handle ev req st) = parsing ++ [UsersRouter; OnError] /\
  users (state_of (handle ev req st)) = users st.
Proof.
  intros Hpass Hm Hp Hb.
  rewrite (handle_users_route _ _ _ _ _ Hpass Hp).
  rewrite router_post_root by (assumption || reflexivity).
  unfold Users.post_root. cbn [with_path req_body]. rewrite Hb.
  split; [|split; reflexivity].
  exists Users.destructure_error. repeat split.
Qed.

Lemma create_user_without_body_witness :
  (exists e, err_name e = "TypeError" /\
     response_of (handle (quiet tenth) (bare POST ["users"]) initial)
     = error_page e /\
     console (state_of (handle (quiet tenth) (bare POST ["users"]) initial)) =
       console (logged (quiet tenth) (bare POST ["users"]) initial)
       ++ [Error None e]) /\
  trace_of (handle (quiet tenth) (bare POST ["users"]) initial)
  = parsing ++ [UsersRouter; OnError] /\
  users (state_of (handle (quiet tenth) (bare POST ["users"]) initial))
  = users initial.
Proof.
  exact (create_user_without_body (quiet tenth) (bare POST ["users"])
           (bare POST ["users"]) initial (passes_quiet _ _)
           eq_refl eq_refl eq_refl).
Defined.

(** X7: the handler of [POST /users] checks nothing: a body without a
    [name] still adds a user, whose name is [undefined], and is still
    answered with the redirect. *)
Theorem create_user_without_name ev req r st body :
  passes ev req r -> req_method r = POST -> req_path r = ["users"] ->
  req_body r = Some body -> body !! "name" = None ->
  users (state_of (handle ev req st)) =
    users st ++
    [ {| id := random_id (Math_random ev); name := JUndefined; tasks := [] |} ] /\
  response_of (handle ev req st) = Redirect 302 "users".
Proof.
  intros Hpass Hm Hp Hb Hv.
  rewrite (handle_create_user _ _ _ _ _ Hpass Hm Hp Hb), Hv.
  split; reflexivity.
Qed.

Lemma create_user_without_name_witness :
  users (state_of
    (handle (quiet tenth) (form POST ["users"] [("title", JStr "x")]) initial))
  = users initial ++
    [ {| id := random_id tenth; name := JUndefined; tasks := [] |} ] /\
  response_of
    (handle (quiet tenth) (form POST ["users"] [("title", JStr "x")]) initial)
  = Redirect 302 "users".
Proof.
  exact (create_user_without_name (quiet tenth)
           (form POST ["users"] [("title", JStr "x")])
           (form POST ["users"] [("title", JStr "x")]) initial
           (list_to_map [("title", JStr "x")])
           (passes_quiet _ _) eq_refl eq_refl eq_refl eq_refl).
Defined.

(** X8: no request removes or changes a stored user: the users before a
    request are a prefix of the users after it, at most one longer, and
    the user added, if any, has no tasks. *)
Theorem store_only_grows ev req st :
  users st `prefix_of` users (state_of (handle ev req st)) /\
  length (users (state_of (handle ev req st))) <= S (length (users st)) /\
  forall u, u ∈ users (state_of (handle ev req st)) ->
            u ∈ users st \/ tasks u = [].
Proof.
  destruct (handle_users ev req st) as [-> | (v & ->)].
  - split; [reflexivity|]. split; [lia | auto].
  - split; [apply prefix_app_r; reflexivity|].
    split; [rewrite length_app; cbn; lia|].
    intros u Hu. apply elem_of_app in Hu as [Hu | Hu]; [left; exact Hu|].
    apply list_elem_of_singleton in Hu. subst u. right; reflexivity.
Qed.

(** X9: in every state the process can reach, the user the store starts
    with is still its first user, and no user has a task: nothing in the
    code ever adds one. *)
Theorem reachable_store st :
  reachable st ->
  initial_users `prefix_of` users st /\
  Forall (fun u => tasks u = []) (users st) /\
  task_count (users st) = 0.
Proof.
  intros Hreach.
  assert (initial_users `prefix_of` users st /\
          Forall (fun u => tasks u = []) (users st)) as [Hpre Hall].
  { induction Hreach as [| ev req st Hr _ [IHp IHa]].
    - split; [reflexivity | repeat constructor].
    - destruct (handle_users ev req st) as [-> | (v & ->)].
      + split; assumption.
      + split; [apply prefix_app_r, IHp|].
        apply Forall_app. split; [exact IHa | repeat constructor]. }
  split; [exact Hpre|]. split; [exact Hall|].
  unfold task_count. clear Hpre Hreach.
  induction Hall as [| u us Hu _ IH]; [reflexivity|].
  cbn. rewrite Hu, IH. reflexivity.
Qed.

(** The state after the store's first user-creating request. *)
Lemma reachable_store_witness :
  initial_users `prefix_of`
    users (state_of (handle (quiet tenth)
                       (form POST ["users"] [("name", JStr "Bob")]) initial)) /\
  Forall (fun u => tasks u = [])
    (users (state_of (handle (quiet tenth)
                        (form POST ["users"] [("name", JStr "Bob")]) initial))) /\
  task_count
    (users (state_of (handle (quiet tenth)
                        (form POST ["users"] [("name", JStr "Bob")]) initial)))
  = 0.
Proof.
  exact (reachable_store _
           (reachable_handle (quiet tenth)
              (form POST ["users"] [("name", JStr "Bob")]) initial
              eq_refl reachable_initial)).
Defined.

(** X10: the store is written by one operation only. If a request
    leaves the stored users different from what they were, the stages
    of Express have handed it on as a POST with a body to the root of
    the router of [/users], and what it did is add one user. *)
Theorem only_create_user_writes ev req st :
  users (state_of (handle ev req st)) <> users st ->
  exists r body,
    passes ev req r /\ req_method r = POST /\ users_root r /\
    req_body r = Some body /\
    users (state_of (handle ev req st)) =
      users st ++
      [ {| id := random_id (Math_random ev);
           name := default JUndefined (body !! "name"); tasks := [] |} ].
Proof.
  intros Hchanged.
  destruct (handle_cases ev req st)
    as [(k & resp & _ & H) | [(k & e & _ & H) | (r & Hpass & _)]].
  - exfalso. apply Hchanged. rewrite H. reflexivity.
  - exfalso. apply Hchanged. rewrite H. reflexivity.
  - destruct (passed_outcomes ev req r st Hpass)
      as [[H _] | [(e & H & _) | (body & Hm & Hroot & Hb & H & _)]].
    + exfalso. apply Hchanged. rewrite H. reflexivity.
    + exfalso. apply Hchanged. rewrite H. reflexivity.
    + exists r, body. rewrite H. repeat split; assumption.
Qed.

Lemma only_create_user_writes_witness :
  exists r body,
    passes (quiet tenth) (form POST ["users"] [("name", JStr "Bob")]) r /\
    req_method r = POST /\ users_root r /\ req_body r = Some body /\
    users (state_of (handle (quiet tenth)
                       (form POST ["users"] [("name", JStr "Bob")]) initial)) =
      users initial ++
      [ {| id := random_id (Math_random (quiet tenth));
           name := default JUndefined (body !! "name"); tasks := [] |} ].
Proof.
  apply (only_create_user_writes (quiet tenth)
           (form POST ["users"] [("name", JStr "Bob")]) initial).
  vm_compute. discriminate.
Defined.

(** X11: the three placeholder routes are bound to POST only: a GET or
    a HEAD on one of their paths is answered by no handler and ends at
    the final handler with 404, the store untouched. *)
Theorem placeholders_answer_post_only ev req r st uid tid :
  passes ev req r -> req_method r = GET \/ req_method r = HEAD ->
  uid <> "" -> tid <> "" ->
  is_Some (decodeURIComponent ev uid) -> is_Some (decodeURIComponent ev tid) ->
  req_path r = ["users"; uid; "delete"] \/
  req_path r = ["users"; uid; "tasks"] \/
  req_path r = ["users"; uid; "tasks"; tid; "delete"] ->
  response_of (handle ev req st) = Final 404 /\
  trace_of (handle ev req st) = parsing ++ [UsersRouter] /\
  users (state_of (handle ev req st)) = users st.
Proof.
  intros Hpass Hm Hid%nonempty_eqb Htid%nonempty_eqb [v Hdec] [w Hdec'] Hp.
  assert (forall rest, req_path r = "users" :: uid :: rest ->
            unmount (uid :: rest) = uid :: rest) as Hun.
  { intros rest _. apply unmount_segment. intros ->. discriminate Hid. }
  destruct Hp as [Hp | [Hp | Hp]];
    rewrite (handle_users_route _ _ _ _ _ Hpass Hp), (Hun _ Hp);
    unfold Users.router, Users.routes; cbn [Users.run_routes];
    cbn [Users.route_method Users.route_pattern Users.route_handler
         with_path req_path req_method];
    cbn [Users.match_path Users.undecodable];
    rewrite ?Hid, ?Htid, ?Hdec, ?Hdec'; decide_guards;
    rewrite ?Hdec, ?Hdec';
    destruct Hm as [-> | ->]; decide_guards; repeat split.
Qed.

Lemma placeholders_answer_post_only_witness :
  response_of (handle (quiet tenth) (form GET ["users"; "1"; "delete"] []) initial)
  = Final 404 /\
  trace_of (handle (quiet tenth) (form GET ["users"; "1"; "delete"] []) initial)
  = parsing ++ [UsersRouter] /\
  users (state_of
    (handle (quiet tenth) (form GET ["users"; "1"; "delete"] []) initial))
  = users initial.
Proof.
  apply (placeholders_answer_post_only (quiet tenth) _
           (form GET ["users"; "1"; "delete"] []) initial "1" "4"
           (passes_quiet _ _) (or_introl eq_refl)).
  - discriminate.
  - discriminate.
  - eexists; reflexivity.
  - eexists; reflexivity.
  - left; reflexivity.
Defined.
(** X12: the redirect of [POST /users] is the relative reference
    [users]. The handler also answers [POST /users/], and from that
    path the reference resolves to [/users/users], which no route
    answers: the user is created, and following the redirect ends in
    404. *)
Theorem trailing_slash_redirect_lost ev req r st body ev' req' r' st' :
  passes ev req r -> req_method r = POST -> req_path r = ["users"; ""] ->
  req_body r = Some body ->
  passes ev' req' r' -> req_method r' = GET ->
  req_path r' = resolve (req_path r) "users" ->
  length (users (state_of (handle ev req st))) = S (length (users st)) /\
  response_of (handle ev req st) = Redirect 302 "users" /\
  pathname (req_path r') = "/users/users" /\
  response_of (handle ev' req' st') = Final 404.
Proof.
  intros Hpass Hm Hp Hb Hpass' Hm' Hp'. rewrite Hp in Hp'. cbn in Hp'.
  rewrite (handle_users_route _ _ _ _ _ Hpass Hp).
  rewrite router_post_root by (assumption || reflexivity).
  unfold Users.post_root. cbn [with_path req_body]. rewrite Hb.
  rewrite (handle_users_route _ _ _ _ _ Hpass' Hp').
  rewrite Hp'. split; [cbn; rewrite length_app; cbn; lia|].
  split; [reflexivity|]. split; [reflexivity|].
  unfold Users.router, Users.routes; cbn [Users.run_routes].
  cbn [Users.route_method Users.route_pattern Users.route_handler
       with_path req_path req_method unmount].
  rewrite Hm'. decide_guards. reflexivity.
Qed.

Lemma trailing_slash_redirect_lost_witness :
  length (users (state_of
    (handle (quiet tenth) (form POST ["users"; ""] [("name", JStr "Bob")])
       initial))) = S (length (users initial)) /\
  response_of
    (handle (quiet tenth) (form POST ["users"; ""] [("name", JStr "Bob")])
       initial) = Redirect 302 "users" /\
  pathname (req_path (form GET ["users"; "users"] [])) = "/users/users" /\
  response_of (handle (quiet tenth) (form GET ["users"; "users"] []) initial)
  = Final 404.
Proof.
  exact (trailing_slash_redirect_lost
           (quiet tenth) (form POST ["users"; ""] [("name", JStr "Bob")])
           (form POST ["users"; ""] [("name", JStr "Bob")]) initial
           (list_to_map [("name", JStr "Bob")])
           (quiet tenth) (form GET ["users"; "users"] [])
           (form GET ["users"; "users"] []) initial
           (passes_quiet _ _) eq_refl eq_refl eq_refl
           (passes_quiet _ _) eq_refl eq_refl).
Defined.

(** X13: every integer from 0 to 10 can be drawn: for each there is a
    Number [Math.random()] can return that gives it as the identifier.
    With C10, the identifiers a create-user operation can assign are
    exactly these eleven. *)
Theorem every_small_id_drawn (n : Z) :
  (0 <= n <= 10)%Z ->
  is_random (draw_for n) = true /\ random_id (draw_for n) = NInt n.
Proof.
  intros Hn.
  assert (n ∈ seqZ 0 11) as Hin by (apply elem_of_seqZ; lia).
  change (seqZ 0 11) with (Z.of_nat <$> seq 0 11) in Hin.
  cbn [seq fmap list_fmap] in Hin.
  repeat (apply elem_of_cons in Hin as [-> | Hin];
          [split; vm_compute; reflexivity|]).
  apply elem_of_nil in Hin. contradiction.
Qed.

Lemma every_small_id_drawn_witness :
  is_random (draw_for 7) = true /\ random_id (draw_for 7) = NInt 7%Z.
Proof. apply (every_small_id_drawn 7). lia. Defined.
End MoreOperations.

Section MoreModelFacts.
Import Http Store Runs Models.

End MoreModelFacts.

Section AsyncFacts.
Import Http Store Async.
Context {F : Type}.
Variable somethingBadHappened : bool.
Variable files : F.
Variable delete_error : option F -> option error.

(** X15: the snippet written with exceptions, the one with callbacks,
    the chain of promises and the [async] function do the same thing:
    from the same start they print the same entries and make the same
    calls of [deleteFiles]. *)
Theorem styles_agree (w : world F) :
  with_callbacks F somethingBadHappened files delete_error w =
    with_exceptions F somethingBadHappened files delete_error w /\
  fst (with_promises F somethingBadHappened files delete_error w) =
    with_exceptions F somethingBadHappened files delete_error w /\
  fst (doReadFiles F somethingBadHappened files delete_error w) =
    with_exceptions F somethingBadHappened files delete_error w.
Proof.
  unfold with_callbacks, with_exceptions, with_promises, doReadFiles,
    readFiles_callback, deleteFiles_callback, readFiles, deleteFiles,
    or_catch, and_then, readFiles_promise, deleteFiles_promise.
  destruct somethingBadHappened; [repeat split|].
  destruct (delete_error (Some files)); repeat split.
Qed.

(** X16: every failure is caught: the chain of promises and the
    [async] function are never rejected, and each run reports once: it
    prints exactly one entry, [Files deleted] exactly when neither
    reading nor deleting failed, and otherwise the error that was
    raised; [deleteFiles] is called once with the files read, and not
    at all when reading failed. *)
Theorem one_report (w : world F) :
  let run := doReadFiles F somethingBadHappened files delete_error w in
  snd (with_promises F somethingBadHappened files delete_error w) = inr tt /\
  snd run = inr tt /\
  (exists x, printed (fst run) = printed w ++ [x] /\
     (x = Log "Files deleted" <->
      somethingBadHappened = false /\ delete_error (Some files) = None) /\
     (somethingBadHappened = true -> x = Error None crashed) /\
     (forall e, somethingBadHappened = false ->
                delete_error (Some files) = Some e -> x = Error None e)) /\
  deletions (fst run) =
    deletions w ++ (if somethingBadHappened then [] else [Some files]).
Proof.
  unfold with_promises, doReadFiles, or_catch, and_then, readFiles_promise,
    deleteFiles_promise.
  destruct somethingBadHappened.
  - repeat split; cbn; [|symmetry; apply app_nil_r].
    exists (Error None crashed). repeat split; try discriminate.
    + intros [? _]; discriminate.
  - destruct (delete_error (Some files)) as [e |] eqn:Hd; repeat split; cbn.
    + exists (Error None e). repeat split; try discriminate.
      * intros [_ ?]; discriminate.
      * intros e' _ [= ->]. reflexivity.
    + exists (Log "Files deleted"). repeat split; discriminate.
Qed.

(** X17: the snippet with the event emitter does not do what the others
    do. [readFiles] emits its event before the caller has added a
    listener, so no listener ever runs: whatever [deleteFiles] would do,
    nothing is printed, [deleteFiles] is not called, and the outcome
    differs from that of the other styles, which always print. *)
Theorem emitter_silent
    (deleteFiles_emitter : argument F -> world F -> emitter F * world F)
    (w : world F) :
  let run := with_emitter F somethingBadHappened files deleteFiles_emitter w in
  snd run = w /\
  length (fst run) = 2 /\
  with_exceptions F somethingBadHappened files delete_error w <> snd run.
Proof.
  intros run.
  assert (snd run = w) as Hsame.
  { unfold run, with_emitter, readFiles_emitter.
    destruct somethingBadHappened; reflexivity. }
  split; [exact Hsame|]. split.
  - unfold run, with_emitter, readFiles_emitter. reflexivity.
  - rewrite Hsame. intros Heq.
    apply (f_equal (fun x => length (printed x))) in Heq. revert Heq.
    unfold with_exceptions, readFiles, deleteFiles.
    destruct somethingBadHappened; [|destruct (delete_error (Some files))];
      cbn; rewrite length_app; cbn; lia.
Qed.
End AsyncFacts.
